(** * Aggregierter RSS-Feed-Generator: a shallow embedding of
      [aggregierter_feed.py] and the properties of its specification.

    The Python program is embedded function by function.  Pure string
    manipulation becomes Rocq functions on [string]; the SQLite table behind
    [SeenStore] becomes a list of rows; network access, the HTML parser, URL
    resolution and the date parsers of the Python libraries are fields of an
    environment record [Env]; code that performs requests or can raise lives
    in a small state-and-exception monad [IO] that also records every
    request sent.

    Strings are byte strings; character classes and case folding are those
    of ASCII. *)

From Stdlib Require Import String Ascii List ZArith Lia Bool Permutation.
Import ListNotations.
Open Scope string_scope.
Open Scope list_scope.
Open Scope Z_scope.

Set Implicit Arguments.

(* ===================================================================== *)
(** * Python string operations used by the program *)
(* ===================================================================== *)

Module PyStr.

(** [s.startswith(p)] *)
Definition startswith (s p : string) : bool := String.prefix p s.

(** [sub in s] *)
Fixpoint contains (sub s : string) : bool :=
  String.prefix sub s ||
  match s with
  | EmptyString => false
  | String _ s' => contains sub s'
  end.

(** [s.rstrip(c)] for a one-character argument. *)
Fixpoint rstrip (c : ascii) (s : string) : string :=
  match s with
  | EmptyString => EmptyString
  | String a s' =>
      let r := rstrip c s' in
      if Ascii.eqb a c && String.eqb r "" then "" else String a r
  end.

(** [s.replace(c, by)] for a one-character pattern. *)
Fixpoint replace (c : ascii) (by_ : string) (s : string) : string :=
  match s with
  | EmptyString => EmptyString
  | String a s' =>
      if Ascii.eqb a c then by_ ++ replace c by_ s'
      else String a (replace c by_ s')
  end.

(** [s.split(c)]: the pieces between the occurrences of [c]; never empty. *)
Fixpoint split (c : ascii) (s : string) : list string :=
  match s with
  | EmptyString => [""]
  | String a s' =>
      if Ascii.eqb a c then "" :: split c s'
      else match split c s' with
           | p :: ps => String a p :: ps
           | [] => [String a ""]
           end
  end.

(** Truthiness of a string: [if s:]. *)
Definition truthy (s : string) : bool := negb (String.eqb s "").

(** Truthiness of an optional string ([None] and [""] are falsy). *)
Definition truthy_opt (o : option string) : bool :=
  match o with Some s => truthy s | None => false end.

(** [a or b] on optional strings. *)
Definition or_else (a b : option string) : option string :=
  if truthy_opt a then a else b.

Definition is_upper (a : ascii) : bool :=
  let n := nat_of_ascii a in (Nat.leb 65 n && Nat.leb n 90)%bool.

Definition lower_char (a : ascii) : ascii :=
  if is_upper a then ascii_of_nat (nat_of_ascii a + 32) else a.

Definition is_digit (a : ascii) : bool :=
  let n := nat_of_ascii a in (Nat.leb 48 n && Nat.leb n 57)%bool.

(** [s.lower()] *)
Fixpoint lower (s : string) : string :=
  match s with
  | EmptyString => EmptyString
  | String a s' => String (lower_char a) (lower s')
  end.

End PyStr.

(* ===================================================================== *)
(** * Regular expressions: the fragment of [re] the program uses *)
(* ===================================================================== *)

Module Re.

(** Patterns: literal characters, [\d], concatenation and alternation.
    [x{n}] is written as an n-fold concatenation. *)
Inductive regex : Type :=
| Eps
| Chr (c : ascii)
| Digit
| Cat (r1 r2 : regex)
| Alt (r1 r2 : regex).

(** Comparison of a subject character with a pattern character; with
    [re.I] both are folded to lower case. *)
Definition chr_eq (ci : bool) (a c : ascii) : bool :=
  if ci then Ascii.eqb (PyStr.lower_char a) (PyStr.lower_char c)
  else Ascii.eqb a c.

(** [matches ci r s k]: some match of [r] at the start of [s] leaves a rest
    accepted by [k]. *)
Fixpoint matches (ci : bool) (r : regex) (s : string) (k : string -> bool)
  : bool :=
  match r with
  | Eps => k s
  | Chr c =>
      match s with
      | String a s' => chr_eq ci a c && k s'
      | EmptyString => false
      end
  | Digit =>
      match s with
      | String a s' => PyStr.is_digit a && k s'
      | EmptyString => false
      end
  | Cat r1 r2 => matches ci r1 s (fun s' => matches ci r2 s' k)
  | Alt r1 r2 => matches ci r1 s k || matches ci r2 s k
  end.

(** [re.search(r, s)] as a truth value: a match starts somewhere in [s]. *)
Fixpoint search (ci : bool) (r : regex) (s : string) : bool :=
  matches ci r s (fun _ => true) ||
  match s with
  | EmptyString => false
  | String _ s' => search ci r s'
  end.

(** A literal string as a pattern. *)
Fixpoint lit (p : string) : regex :=
  match p with
  | EmptyString => Eps
  | String c p' => Cat (Chr c) (lit p')
  end.

(** [r | r1 | ... | rn] *)
Definition alts (r : regex) (rs : list regex) : regex :=
  fold_left Alt rs r.

Fixpoint rep (n : nat) (r : regex) : regex :=
  match n with
  | O => Eps
  | S n' => Cat r (rep n' r)
  end.

End Re.

(* ===================================================================== *)
(** * Exceptions and results *)
(* ===================================================================== *)

Inductive exn : Type :=
| RequestException   (* requests: connection failure, timeout, bad URL *)
| HTTPError          (* requests: raise_for_status on a 4xx/5xx answer *)
| ValueError
| TypeError
| IntegrityError     (* sqlite3: UNIQUE constraint failed *)
| FeedError.         (* an exception out of feedparser.parse *)

Inductive result (A : Type) : Type :=
| Ok (a : A)
| Raise (e : exn).
Arguments Ok {A} a.
Arguments Raise {A} e.

(* ===================================================================== *)
(** * SeenStore: the table [seen (id, guid UNIQUE, first_seen)] *)
(* ===================================================================== *)

Module SeenStore.

Record row : Type := mkRow {
  row_id : Z;
  guid : string;
  first_seen : Z
}.

(** The content of table [seen], in insertion order. *)
Definition table : Type := list row.

(** [CREATE TABLE IF NOT EXISTS seen]: a fresh database has no rows. *)
Definition init : table := [].

Definition has_guid (g : string) (r : row) : bool := String.eqb (guid r) g.

(** [SELECT 1 FROM seen WHERE guid = ?] followed by [fetchone() is not None] *)
Definition is_seen (db : table) (g : string) : bool :=
  existsb (has_guid g) db.

(** The rowid SQLite gives to a new row: one more than the largest one. *)
Definition next_rowid (db : table) : Z :=
  fold_right (fun r m => Z.max (row_id r) m) 0 db + 1.

(** [INSERT INTO seen (guid, first_seen) VALUES (?, ?)] with the commit.
    The UNIQUE constraint on [guid] makes the statement raise
    [IntegrityError] when a row with this guid exists. *)
Definition insert (db : table) (g : string) (now : Z) : result unit * table :=
  if existsb (has_guid g) db then (Raise IntegrityError, db)
  else (Ok tt, db ++ [mkRow (next_rowid db) g now]).

(** [mark_seen]: the insert, with [except sqlite3.IntegrityError: pass]. *)
Definition mark_seen (db : table) (g : string) (now : Z)
  : result unit * table :=
  match insert db g now with
  | (Raise IntegrityError, db') => (Ok tt, db')
  | other => other
  end.

(** Number of records kept for an identifier. *)
Definition records (db : table) (g : string) : nat :=
  List.length (filter (has_guid g) db).

(** The constraint the database maintains: no two rows share a guid. *)
Definition unique_guids (db : table) : Prop := NoDup (map guid db).

End SeenStore.

(* ===================================================================== *)
(** * Data *)
(* ===================================================================== *)

(** An outbound HTTP request: the URL, the headers the client sets and the
    timeout in seconds (when one is given). *)
Record request : Type := mkRequest {
  rq_url : string;
  rq_headers : list (string * string);
  rq_timeout : option Z
}.

(** What the program reads of a [requests.Response]. *)
Record response : Type := mkResponse {
  status_code : Z;
  content_type : option string;     (* headers.get("Content-Type") *)
  text : string
}.

(** A [<link>] element: its [type] and [href] attributes. *)
Record link_tag : Type := mkLink {
  lt_type : option string;
  lt_href : option string
}.

(** An [<a>] element that has an [href] attribute, with
    [get_text(strip=True)]. *)
Record anchor : Type := mkAnchor {
  a_href : string;
  a_text : string
}.

(** [time.struct_time], as feedparser gives it in [published_parsed]. *)
Definition struct_time : Type := list Z.

(** The fields the program reads of a feedparser entry. *)
Record entry : Type := mkEntry {
  e_title : option string;
  e_link : option string;
  e_id : option string;
  e_summary : option string;
  e_published_parsed : option struct_time;
  e_published : option string;
  e_updated : option string
}.

(** The item dictionaries [{"title", "link", "description", "pubDate"}]. *)
Record item : Type := mkItem {
  title : string;
  link : string;
  description : string;
  pubDate : string
}.

(** A row of the CSV file as [load_clubs] returns it. *)
Record club : Type := mkClub {
  name : option string;
  url : option string
}.

(** A [datetime]: naive (no tzinfo) or aware, with its position on the
    time line as a number of time units (of the wall clock for a naive
    one, of the instant for an aware one). *)
Inductive datetime : Type :=
| Naive (us : Z)
| Aware (us : Z).

(** [a < b] on datetimes: Python refuses to order a naive and an aware
    datetime ("can't compare offset-naive and offset-aware datetimes"). *)
Definition dt_lt (a b : datetime) : result bool :=
  match a, b with
  | Naive x, Naive y => Ok (x <? y)
  | Aware x, Aware y => Ok (x <? y)
  | _, _ => Raise TypeError
  end.

(* ===================================================================== *)
(** * The environment: network, clock and library functions *)
(* ===================================================================== *)

Record Env : Type := mkEnv {
  (** the state of the outside world (remote sites, clock) *)
  World : Type;
  (** [requests.get]: the answer to a request, or the exception raised *)
  send : request -> World -> result response * World;
  (** [feedparser.parse(url).entries], or the exception raised *)
  feed_entries : string -> World -> result (list entry) * World;
  (** [feedparser.USER_AGENT]: what feedparser sends when the caller passes
      no [agent] *)
  feedparser_agent : string;
  (** [datetime.utcnow()]: the reading, a naive datetime *)
  utcnow : World -> Z * World;
  (** [BeautifulSoup(text, "html.parser").find_all("link")] *)
  soup_link_tags : string -> list link_tag;
  (** [BeautifulSoup(text, "html.parser").find_all("a", href=True)] *)
  soup_anchors : string -> list anchor;
  (** [requests.compat.urljoin(base, href)]; raises [ValueError] on a
      reference it cannot split *)
  urljoin : string -> string -> result string;
  (** [requests.utils.urlparse(u).path] *)
  urlparse_path : string -> string;
  (** [email.utils.format_datetime] of a naive datetime *)
  format_datetime : Z -> string;
  (** [format_datetime(datetime.fromtimestamp(time.mktime(pub)))] *)
  format_struct_time : struct_time -> string;
  (** [datetime.fromisoformat] *)
  fromisoformat : string -> result datetime;
  (** [email.utils.parsedate_to_datetime] *)
  parsedate_to_datetime : string -> result datetime
}.

(* ===================================================================== *)
(** * State and exceptions *)
(* ===================================================================== *)

(** Computations over a state [S] that return a value or raise. *)
Definition M (S A : Type) : Type := S -> result A * S.

Definition ret {S A : Type} (a : A) : M S A := fun st => (Ok a, st).

Definition bind {S A B : Type} (m : M S A) (f : A -> M S B) : M S B :=
  fun st =>
    match m st with
    | (Ok a, st') => f a st'
    | (Raise e, st') => (Raise e, st')
    end.

Definition raise {S A : Type} (e : exn) : M S A := fun st => (Raise e, st).

(** [try: m  except Exception: h] *)
Definition try_except {S A : Type} (m : M S A) (h : exn -> M S A) : M S A :=
  fun st =>
    match m st with
    | (Ok a, st') => (Ok a, st')
    | (Raise e, st') => h e st'
    end.

(** Run [m] and hand its outcome to the caller, who handles it. *)
Definition attempt {S A : Type} (m : M S A) : M S (result A) :=
  fun st => let (r, st') := m st in (Ok r, st').

(** A pure outcome as a computation. *)
Definition of_result {S A : Type} (r : result A) : M S A :=
  fun st => (r, st).

Declare Scope m_scope.
Delimit Scope m_scope with m.
Notation "x <- m ;; k" := (bind m (fun x => k))
  (at level 61, m at next level, right associativity) : m_scope.
Notation "m ;;; k" := (bind m (fun _ => k))
  (at level 61, right associativity) : m_scope.
Open Scope m_scope.

(* ===================================================================== *)
(** * The program *)
(* ===================================================================== *)

(** ** Configuration *)

Definition USER_AGENT : string :=
  "VereineRSSAggregator/1.0 (+https://example.com)".
Definition REQUEST_TIMEOUT : Z := 12.
Definition MAX_ITEMS_PER_SOURCE : nat := 8.

(** The patterns of the three [re] calls. *)

(** [(application|text)/rss\+xml|application/atom\+xml] *)
Definition FEED_TYPE_RE : Re.regex :=
  Re.Alt
    (Re.Cat (Re.Alt (Re.lit "application") (Re.lit "text")) (Re.lit "/rss+xml"))
    (Re.lit "application/atom+xml").

(** [<rss|<feed] *)
Definition FEED_BODY_RE : Re.regex :=
  Re.Alt (Re.lit "<rss") (Re.lit "<feed").

(** [/news/|/article/|/artikel/|/aktuell|/presse|/blog|/berichte|/nachrichten|/news\-|\d{4}/\d{2}] *)
Definition ARTICLE_RE : Re.regex :=
  Re.alts (Re.lit "/news/")
    [ Re.lit "/article/"; Re.lit "/artikel/"; Re.lit "/aktuell";
      Re.lit "/presse"; Re.lit "/blog"; Re.lit "/berichte";
      Re.lit "/nachrichten"; Re.lit "/news-";
      Re.Cat (Re.rep 4 Re.Digit) (Re.Cat (Re.Chr "/") (Re.rep 2 Re.Digit)) ].

(** The header dictionary [{"User-Agent": agent}]. *)
Definition ua_headers (agent : string) : list (string * string) :=
  [("User-Agent", agent)].

(** The user-agent header a request carries, if it carries one. *)
Definition user_agent (rq : request) : option string :=
  match find (fun h => String.eqb (fst h) "User-Agent") (rq_headers rq) with
  | Some h => Some (snd h)
  | None => None
  end.

Section Program.

Variable E : Env.

(** The state of a run outside the seen store: the world and the requests
    sent so far (oldest first). *)
Record netstate : Type := mkNet {
  world : World E;
  sent : list request
}.

Definition IO (A : Type) : Type := M netstate A.

(** Sending [rq]: the world answers, the request is recorded. *)
Definition perform (rq : request) : IO response :=
  fun st =>
    let (r, w) := send E rq (world st) in
    (r, mkNet w (sent st ++ [rq])).

(** [requests.get(url, headers=headers, timeout=timeout)] *)
Definition requests_get (u : string) (headers : list (string * string))
  (timeout : Z) : IO response :=
  perform (mkRequest u headers (Some timeout)).

(** [datetime.utcnow()] *)
Definition now : IO Z :=
  fun st => let (t, w) := utcnow E (world st) in (Ok t, mkNet w (sent st)).

(** [r.raise_for_status()] *)
Definition raise_for_status (r : response) : IO unit :=
  if (400 <=? status_code r) && (status_code r <? 600)
  then raise HTTPError else ret tt.

(** ** HTTP GET *)

Definition http_get (u : string) : IO response :=
  r <- requests_get u (ua_headers USER_AGENT) REQUEST_TIMEOUT ;;
  raise_for_status r ;;;
  ret r.

(** ** RSS discovery *)

(** [find_all("link", type=re.compile(...))]: the [<link>] elements whose
    [type] attribute the pattern is found in. *)
Definition feed_link (lt : link_tag) : bool :=
  match lt_type lt with
  | Some t => Re.search false FEED_TYPE_RE t
  | None => false
  end.

(** The loop over [link_tags]: the first [href] that is truthy. *)
Fixpoint first_href (lts : list link_tag) : option string :=
  match lts with
  | [] => None
  | lt :: rest =>
      if PyStr.truthy_opt (lt_href lt) then lt_href lt else first_href rest
  end.

Definition feed_candidates (u : string) : list string :=
  let base := PyStr.rstrip "/" u in
  [ (base ++ "/feed")%string; (base ++ "/rss")%string;
    (base ++ "/rss.xml")%string; (base ++ "/news/rss")%string;
    (base ++ "/news/feed")%string; (base ++ "/aktuelles/feed")%string ].

(** The test on a candidate's answer. *)
Definition looks_like_feed (rr : response) : bool :=
  (status_code rr =? 200) &&
  (PyStr.contains "xml"
     (match content_type rr with Some ct => ct | None => "" end)
   || Re.search false FEED_BODY_RE (text rr)).

(** The loop over [candidates]. *)
Fixpoint probe_candidates (cs : list string) : IO (option string) :=
  match cs with
  | [] => ret None
  | c :: rest =>
      rr <- attempt (requests_get c (ua_headers USER_AGENT) 6) ;;
      match rr with
      | Ok rr => if looks_like_feed rr then ret (Some c)
                 else probe_candidates rest
      | Raise _ => probe_candidates rest
      end
  end.

Definition discover_rss_from_url (u : string) : IO (option string) :=
  r <- attempt (http_get u) ;;
  match r with
  | Raise _ => ret None
  | Ok r =>
      let link_tags := filter feed_link (soup_link_tags E (text r)) in
      match first_href link_tags with
      | Some href => j <- of_result (urljoin E u href) ;; ret (Some j)
      | None => probe_candidates (feed_candidates u)
      end
  end.

(** ** Reading a feed *)

(** [feedparser.parse(rss_url)]: feedparser fetches the URL itself; the
    program passes no [agent], so the request carries feedparser's own. *)
Definition feedparser_parse (rss_url : string) : IO (list entry) :=
  fun st =>
    let rq := mkRequest rss_url (ua_headers (feedparser_agent E)) None in
    let (r, w) := feed_entries E rss_url (world st) in
    (r, mkNet w (sent st ++ [rq])).

(** The body of the loop over the entries: [None] stands for [continue]. *)
Definition item_of_entry (e : entry) : IO (option item) :=
  let title :=
    match PyStr.or_else (e_title e) (Some "(kein Titel)") with
    | Some t => t | None => "(kein Titel)" end in
  let link := PyStr.or_else (e_link e) (e_id e) in
  if negb (PyStr.truthy_opt link) then ret None
  else
    let link := match link with Some l => l | None => "" end in
    let desc := match e_summary e with Some s => s | None => "" end in
    pubdate <-
      match e_published_parsed e with
      | Some pub => ret (format_struct_time E pub)
      | None =>
          match PyStr.or_else (e_published e) (e_updated e) with
          | Some p =>
              if PyStr.truthy p then ret p
              else t <- now ;; ret (format_datetime E t)
          | None => t <- now ;; ret (format_datetime E t)
          end
      end ;;
    ret (Some (mkItem title link desc pubdate)).

Fixpoint items_of_entries (es : list entry) : IO (list item) :=
  match es with
  | [] => ret []
  | e :: rest =>
      o <- item_of_entry e ;;
      items <- items_of_entries rest ;;
      ret (match o with Some it => it :: items | None => items end)
  end.

Definition fetch_feed_items (rss_url : string) : IO (list item) :=
  f <- attempt (feedparser_parse rss_url) ;;
  match f with
  | Raise _ => ret []
  | Ok entries => items_of_entries (firstn MAX_ITEMS_PER_SOURCE entries)
  end.

(** ** Heuristic scraping *)

(** [len([p for p in urlparse(full).path.split('/') if p])] *)
Definition path_depth (full : string) : nat :=
  List.length (filter PyStr.truthy (PyStr.split "/" (urlparse_path E full))).

(** The two tests on a resolved link. *)
Definition article_like (full : string) : bool :=
  if Re.search true ARTICLE_RE full then true
  else Nat.leb 3 (path_depth full).

(** The tests before the link is resolved: [false] stands for [continue]. *)
Definition anchor_survives (a : anchor) : bool :=
  if (negb (PyStr.truthy (a_text a))
      || Nat.ltb (String.length (a_text a)) 5)%bool then false
  else if (PyStr.startswith (a_href a) "#"
           || PyStr.startswith (a_href a) "mailto:")%bool then false
  else true.

(** The loop over [anchors], building [candidates]. *)
Fixpoint scrape_candidates (page_url : string) (anchors : list anchor)
  : result (list (string * string)) :=
  match anchors with
  | [] => Ok []
  | a :: rest =>
      if negb (anchor_survives a) then scrape_candidates page_url rest
      else
        match urljoin E page_url (a_href a) with
        | Raise e => Raise e
        | Ok full =>
            match scrape_candidates page_url rest with
            | Raise e => Raise e
            | Ok cs =>
                Ok (if article_like full then (full, a_text a) :: cs else cs)
            end
        end
  end.

(** The loop over [candidates], building [unique]. *)
Fixpoint unique_links (cands : list (string * string)) (seen : list string)
  (unique : list (string * string)) : list (string * string) :=
  match cands with
  | [] => unique
  | (l, t) :: rest =>
      if existsb (String.eqb l) seen then unique_links rest seen unique
      else
        let unique' := unique ++ [(l, t)] in
        if Nat.leb MAX_ITEMS_PER_SOURCE (List.length unique') then unique'
        else unique_links rest (l :: seen) unique'
  end.

Fixpoint items_of_links (page_url : string) (ls : list (string * string))
  : IO (list item) :=
  match ls with
  | [] => ret []
  | (l, t) :: rest =>
      d <- now ;;
      items <- items_of_links page_url rest ;;
      ret (mkItem t l ("Artikel von " ++ page_url)%string (format_datetime E d)
             :: items)
  end.

Definition scrape_for_articles (page_url : string) : IO (list item) :=
  r <- attempt (http_get page_url) ;;
  match r with
  | Raise _ => ret []
  | Ok r =>
      candidates <-
        of_result (scrape_candidates page_url (soup_anchors E (text r))) ;;
      items_of_links page_url (unique_links candidates [] [])
  end.

(** ** Aggregation *)

Definition guess_paths : list string :=
  ["/news"; "/aktuelles"; "/presse"; "/news/feed"; "/de/aktuelles"].

(** The loop over [guess_paths], followed by [if not found]: the scraper
    runs inside the [try] for a guessed page and outside any [try] for the
    given URL. *)
Fixpoint guess_loop (u : string) (gps : list string) : IO (list item) :=
  match gps with
  | [] => scrape_for_articles u
  | gp :: rest =>
      let guess := (PyStr.rstrip "/" u ++ gp)%string in
      found <-
        try_except
          (r <- requests_get guess (ua_headers USER_AGENT) 6 ;;
           if (status_code r =? 200)
              && Nat.ltb 200 (String.length (text r))
           then items <- scrape_for_articles guess ;; ret (Some items)
           else ret None)
          (fun _ => ret None) ;;
      match found with
      | Some items => ret items
      | None => guess_loop u rest
      end
  end.

(** The items of one source, before attribution. *)
Definition source_items_of (c : club) : IO (list item) :=
  match url c with
  | Some u =>
      if PyStr.truthy u then
        rss <- discover_rss_from_url u ;;
        match rss with
        | Some f =>
            if PyStr.truthy f then fetch_feed_items f
            else guess_loop u guess_paths
        | None => guess_loop u guess_paths
        end
      else ret []
  | None => ret []
  end.

(** [f"{name}"] *)
Definition str_of_name (n : option string) : string :=
  match n with Some s => s | None => "None" end.

(** The attribution of one item.  [name + ':'] is evaluated only when the
    title has no [" - "], and raises [TypeError] when [name] is [None]. *)
Definition attribute (n : option string) (it : item) : result item :=
  let new_title :=
    if negb (PyStr.contains " - " (title it)) then
      match n with
      | None => Raise TypeError
      | Some s =>
          if negb (PyStr.startswith (title it) (s ++ ":")%string)
          then Ok (s ++ ": " ++ title it)%string
          else Ok (title it)
      end
    else Ok (title it) in
  match new_title with
  | Raise e => Raise e
  | Ok t =>
      Ok (mkItem t (link it)
            ("Quelle: " ++ str_of_name n ++ ". " ++ description it)%string
            (pubDate it))
  end.

Fixpoint attribute_all (n : option string) (items : list item)
  : result (list item) :=
  match items with
  | [] => Ok []
  | it :: rest =>
      match attribute n it with
      | Raise e => Raise e
      | Ok it' =>
          match attribute_all n rest with
          | Raise e => Raise e
          | Ok rest' => Ok (it' :: rest')
          end
      end
  end.

(** The state of a run of [aggregate]: the network side and the table of
    the seen store. *)
Definition aggstate : Type := (netstate * SeenStore.table)%type.
Definition Agg (A : Type) : Type := M aggstate A.

Definition lift {A : Type} (m : IO A) : Agg A :=
  fun st => let (r, ns) := m (fst st) in (r, (ns, snd st)).

Definition is_seen (g : string) : Agg bool :=
  fun st => (Ok (SeenStore.is_seen (snd st) g), st).

Definition mark_seen (g : string) : Agg unit :=
  fun st =>
    let (t, w) := utcnow E (world (fst st)) in
    let (r, db) := SeenStore.mark_seen (snd st) g t in
    (r, (mkNet w (sent (fst st)), db)).

(** The loop building [new_items]. *)
Fixpoint dedup (items : list item) : Agg (list item) :=
  match items with
  | [] => ret []
  | it :: rest =>
      seen <- is_seen (link it) ;;
      if seen then dedup rest
      else
        mark_seen (link it) ;;;
        kept <- dedup rest ;;
        ret (it :: kept)
  end.

(** One iteration of the loop over [clubs]: the new items of a source. *)
Definition process_club (c : club) : Agg (list item) :=
  source_items <- lift (source_items_of c) ;;
  attributed <- of_result (attribute_all (name c) source_items) ;;
  dedup attributed.

(** The loop over [clubs], building [all_items]. *)
Fixpoint collect (clubs : list club) : Agg (list item) :=
  match clubs with
  | [] => ret []
  | c :: rest =>
      new_items <- process_club c ;;
      more <- collect rest ;;
      ret (new_items ++ more)
  end.

(** [parse_date] *)
Definition parse_date (s : string) : IO datetime :=
  match fromisoformat E (PyStr.replace "Z" "+00:00" s) with
  | Ok d => ret d
  | Raise _ =>
      match parsedate_to_datetime E s with
      | Ok d => ret d
      | Raise _ => t <- now ;; ret (Naive t)
      end
  end.

(** [list.sort(key=..., reverse=True)] first computes the key of every
    element, in list order. *)
Fixpoint keyed (items : list item) : IO (list (datetime * item)) :=
  match items with
  | [] => ret []
  | it :: rest =>
      k <- parse_date (pubDate it) ;;
      more <- keyed rest ;;
      ret ((k, it) :: more)
  end.

(** Then it sorts by the keys with [<], stably, largest first: elements
    with equal keys keep their order.  The sort is written here as an
    insertion sort, which returns what every stable sort returns; a
    comparison that raises ends it.  (Python's sort compares every element
    with another one, as this one does, so both raise on the same lists:
    those of two or more elements with a naive and an aware key.) *)
Fixpoint insert_desc (x : datetime * item) (l : list (datetime * item))
  : result (list (datetime * item)) :=
  match l with
  | [] => Ok [x]
  | y :: l' =>
      match dt_lt (fst x) (fst y) with
      | Raise e => Raise e
      | Ok true =>
          match insert_desc x l' with
          | Raise e => Raise e
          | Ok r => Ok (y :: r)
          end
      | Ok false => Ok (x :: y :: l')
      end
  end.

Fixpoint sort_desc (l : list (datetime * item))
  : result (list (datetime * item)) :=
  match l with
  | [] => Ok []
  | x :: l' =>
      match sort_desc l' with
      | Raise e => Raise e
      | Ok s => insert_desc x s
      end
  end.

Definition sort_by_date (all_items : list item) : Agg (list item) :=
  decorated <- lift (keyed all_items) ;;
  sorted <- of_result (sort_desc decorated) ;;
  ret (map snd sorted).

Definition aggregate (clubs : list club) : Agg (list item) :=
  all_items <- collect clubs ;;
  sort_by_date all_items.

End Program.

Arguments mkNet {E} world sent.

(* ===================================================================== *)
(** * The statements of the specification that are compared with the code *)
(* ===================================================================== *)

Module Spec.

(** "a case-insensitive [<rss] or [<feed] tag" *)
Definition body_has_feed_tag (body : string) : bool :=
  PyStr.contains "<rss" (PyStr.lower body)
  || PyStr.contains "<feed" (PyStr.lower body).

(** "HTTP status 200 AND (its Content-Type header contains xml OR its body
    contains a case-insensitive <rss or <feed tag)" *)
Definition accepts (rr : response) : bool :=
  (status_code rr =? 200) &&
  (PyStr.contains "xml"
     (match content_type rr with Some ct => ct | None => "" end)
   || body_has_feed_tag (text rr)).

(** "[<link>] elements whose declared type matches RSS
    ([application/rss+xml], or [text/rss+xml]) or Atom
    ([application/atom+xml])" *)
Definition declares_feed (lt : link_tag) : bool :=
  match lt_type lt with
  | Some t =>
      PyStr.contains "application/rss+xml" t
      || PyStr.contains "text/rss+xml" t
      || PyStr.contains "application/atom+xml" t
  | None => false
  end.







(** The attribution of a title, in the words of the specification. *)
Definition attributed_title (n t : string) : string :=
  if PyStr.contains " - " t || PyStr.startswith t (n ++ ":")%string
  then t else (n ++ ": " ++ t)%string.

(** A list of datetimes is non-increasing: no element is smaller than its
    successor (and every two neighbours can be compared). *)
Fixpoint non_increasing (ks : list datetime) : Prop :=
  match ks with
  | a :: ((b :: _) as rest) => dt_lt a b = Ok false /\ non_increasing rest
  | _ => True
  end.

(** Both kinds of datetime occur in [ks]. *)
Definition is_naive (d : datetime) : bool :=
  match d with Naive _ => true | Aware _ => false end.

Definition mixed (ks : list datetime) : bool :=
  existsb is_naive ks && existsb (fun d => negb (is_naive d)) ks.

(** What a stretch of the run does to the store: the items it keeps have
    pairwise different links, none of them was recorded before, all of them
    are recorded afterwards, and nothing recorded is forgotten. *)
Definition fresh_run (db db' : SeenStore.table) (kept : list item) : Prop :=
  NoDup (map link kept)
  /\ (forall it, In it kept ->
        SeenStore.is_seen db (link it) = false
        /\ SeenStore.is_seen db' (link it) = true)
  /\ (forall g, SeenStore.is_seen db g = true ->
                SeenStore.is_seen db' g = true).

(** The test on a candidate's answer with the tags looked for as they are
    written, in lower case. *)
Definition accepts_exact (rr : response) : bool :=
  (status_code rr =? 200) &&
  (PyStr.contains "xml"
     (match content_type rr with Some ct => ct | None => "" end)
   || PyStr.contains "<rss" (text rr)
   || PyStr.contains "<feed" (text rr)).

(** The request that probes candidate [c]. *)
Definition probe (E : Env) (c : string) : IO E response :=
  requests_get c (ua_headers USER_AGENT) 6.

(** [rejected accept cs st st']: probing the candidates [cs] one after the
    other from state [st] ends in [st'], and each of them either raised or
    gave an answer that [accept] refuses. *)
Inductive rejected (E : Env) (accept : response -> bool)
  : list string -> netstate E -> netstate E -> Prop :=
| rejected_nil (st : netstate E) : rejected accept [] st st
| rejected_raise (c : string) (cs : list string) (st st1 st2 : netstate E)
    (e : exn) :
    @probe E c st = (Raise e, st1) ->
    rejected accept cs st1 st2 ->
    rejected accept (c :: cs) st st2
| rejected_answer (c : string) (cs : list string) (st st1 st2 : netstate E)
    (rr : response) :
    @probe E c st = (Ok rr, st1) ->
    accept rr = false ->
    rejected accept cs st1 st2 ->
    rejected accept (c :: cs) st st2.

(** [c] is the first candidate of [cs] whose answer [accept] accepts. *)
Definition first_accepted (E : Env) (accept : response -> bool)
  (cs : list string) (st : netstate E) (c : string) (st' : netstate E)
  : Prop :=
  exists pre post st_mid rr,
    cs = pre ++ c :: post
    /\ rejected accept pre st st_mid
    /\ @probe E c st_mid = (Ok rr, st')
    /\ accept rr = true.

(** "accept the first candidate whose response" passes the test [accept],
    and no other. *)
Definition probing_accepts (E : Env) (accept : response -> bool)
  (cs : list string) (st : netstate E) : Prop :=
  forall c st',
    probe_candidates cs st = (Ok (Some c), st')
    <-> first_accepted accept cs st c st'.


(** The item an item becomes by attribution to the source named [n]. *)
Definition attributed (n : string) (it : item) : item :=
  mkItem (attributed_title n (title it)) (link it)
    ("Quelle: " ++ n ++ ". " ++ description it)%string (pubDate it).

(** [sends log P m]: whatever the state, the requests [m] adds to the log
    all satisfy [P] (and [m] removes none). *)
Definition sends {S A : Type} (log : S -> list request)
  (P : request -> Prop) (m : M S A) : Prop :=
  forall st, exists new, log (snd (m st)) = log st ++ new /\ Forall P new.

(** [m] returns a value, whatever the state. *)
Definition never_raises {S A : Type} (m : M S A) : Prop :=
  forall st, exists a, fst (m st) = Ok a.

(** The request identifies the program. *)
Definition carries_agent (rq : request) : Prop :=
  user_agent rq = Some USER_AGENT.

(** The request is one feedparser makes on its own. *)
Definition feedparser_request (E : Env) (rq : request) : Prop :=
  rq_headers rq = ua_headers (feedparser_agent E) /\ rq_timeout rq = None.

(** The log of a run of the aggregator. *)
Definition run_log (E : Env) (st : aggstate E) : list request :=
  sent (fst st).

(** The keys of a decorated list. *)
Definition keys (l : list (datetime * item)) : list datetime := map fst l.

End Spec.

(* ===================================================================== *)
(** * A concrete environment for the examples *)
(* ===================================================================== *)

(** A handful of sites, a clock that counts seconds after 11:00 on
    2026-11-03, and the library functions restricted to the strings these
    sites use; on those strings they return what the Python libraries
    return. *)
Module Demo.

Definition digit (n : nat) : ascii := ascii_of_nat (48 + n).

Definition two_digits (n : nat) : string :=
  String (digit (Nat.div n 10)) (String (digit (Nat.modulo n 10)) "").

Definition digit_val (a : ascii) : option nat :=
  if PyStr.is_digit a then Some (nat_of_ascii a - 48)%nat else None.

Definition read_two (s : string) : option nat :=
  match s with
  | String a (String b "") =>
      match digit_val a, digit_val b with
      | Some x, Some y => Some (10 * x + y)%nat
      | _, _ => None
      end
  | _ => None
  end.

(** Minutes and seconds [MM:SS] as a number of seconds. *)
Definition read_clock (s : string) : option Z :=
  match read_two (substring 0 2 s), read_two (substring 3 2 s) with
  | Some m, Some sec =>
      if String.eqb (substring 2 1 s) ":"
      then Some (Z.of_nat (60 * m + sec)) else None
  | _, _ => None
  end.

(** [format_datetime] of the naive datetime [t] seconds after 11:00. *)
Definition format_datetime (t : Z) : string :=
  let n := Z.to_nat t in
  ("Tue, 03 Nov 2026 11:" ++ two_digits (Nat.div n 60) ++ ":"
     ++ two_digits (Nat.modulo n 60) ++ " -0000")%string.

Definition format_struct_time (st : struct_time) : string :=
  format_datetime (60 * nth 4 st 0 + nth 5 st 0).

(** [parsedate_to_datetime]: zone [-0000] gives a naive datetime, zone
    [+0000] an aware one. *)
Definition parsedate_to_datetime (s : string) : result datetime :=
  if String.prefix "Tue, 03 Nov 2026 11:" s then
    match read_clock (substring 20 5 s) with
    | Some t =>
        if String.eqb (substring 25 6 s) " -0000"
           && Nat.eqb (String.length s) 31 then Ok (Naive t)
        else if String.eqb (substring 25 6 s) " +0000"
                && Nat.eqb (String.length s) 31 then Ok (Aware t)
        else Raise ValueError
    | None => Raise ValueError
    end
  else Raise ValueError.

(** [datetime.fromisoformat]: without offset a naive datetime, with
    [+00:00] an aware one. *)
Definition fromisoformat (s : string) : result datetime :=
  if String.prefix "2026-11-03T11:" s then
    match read_clock (substring 14 5 s) with
    | Some t =>
        if Nat.eqb (String.length s) 19 then Ok (Naive t)
        else if String.eqb (substring 19 6 s) "+00:00"
                && Nat.eqb (String.length s) 25 then Ok (Aware t)
        else Raise ValueError
    | None => Raise ValueError
    end
  else Raise ValueError.

(** The part of an absolute URL before its path. *)
Fixpoint until_slash (s : string) : string :=
  match s with
  | EmptyString => EmptyString
  | String a s' => if Ascii.eqb a "/" then "" else String a (until_slash s')
  end.

Fixpoint from_slash (s : string) : string :=
  match s with
  | EmptyString => EmptyString
  | String a s' => if Ascii.eqb a "/" then s else from_slash s'
  end.

Definition scheme_of (u : string) : option string :=
  if String.prefix "https://" u then Some "https://"
  else if String.prefix "http://" u then Some "http://"
  else None.

Definition after_scheme (u : string) : string :=
  match scheme_of u with
  | Some sch => substring (String.length sch)
                  (String.length u - String.length sch) u
  | None => u
  end.

Definition origin (u : string) : string :=
  match scheme_of u with
  | Some sch => (sch ++ until_slash (after_scheme u))%string
  | None => ""
  end.

(** [urljoin] for absolute references and for references relative to the
    root of the site; an authority with an opening bracket that is never
    closed is refused with [ValueError] (Invalid IPv6 URL). *)
Definition urljoin (base href : string) : result string :=
  match scheme_of href with
  | Some _ =>
      let authority := until_slash (after_scheme href) in
      if PyStr.contains "[" authority && negb (PyStr.contains "]" authority)
      then Raise ValueError
      else Ok href
  | None =>
      if String.eqb href "" then Ok base
      else if String.prefix "/" href then Ok (origin base ++ href)%string
      else Ok (origin base ++ "/" ++ href)%string
  end.

Fixpoint until_query (s : string) : string :=
  match s with
  | EmptyString => EmptyString
  | String a s' =>
      if Ascii.eqb a "?" || Ascii.eqb a "#" then ""
      else String a (until_query s')
  end.

(** [urlparse(u).path] of an absolute http(s) URL. *)
Definition urlparse_path (u : string) : string :=
  from_slash (until_query (after_scheme u)).


(** The pages of the sites. *)

Definition page_fc : string :=
  "<link rel='alternate' type='application/rss+xml' href='/feed.xml'>".

Definition page_plain : string :=
  "<link rel='stylesheet' type='text/css' href='/s.css'><p>Willkommen</p>".

Definition page_sv_news : string :=
  ("<a href='/news/pokalsieg'>Pokalsieg im Derby</a>"
   ++ "<a href='/impressum'>Impressum</a>"
   ++ "<a href='#top'>Nach oben</a>"
   ++ "<a href='/news/pokalsieg'>Mehr zum Pokalsieg</a>"
   ++ "<a href='/verein/jugend/u19/kader'>Kader der U19</a>"
   ++ "<a href='/?p=/blog'>Vereinsblog</a>"
   ++ "<!-- Fusszeile: Anschrift, Vorstand, Vereinsregister, Datenschutz, "
   ++ "Kontakt, Sponsoren, Partner, Anfahrt, Satzung, Mitglied werden -->")%string.

Definition page_nohref : string :=
  ("<link type='application/rss+xml'>"
   ++ "<link type='application/atom+xml' href='/atom.xml'>")%string.

Definition page_badhref : string :=
  "<link type='application/rss+xml' href='http://['>".

Definition page_badanchor : string :=
  "<a href='http://[::1'>Zum Liveticker</a>".

Definition body_upper_rss : string :=
  "<RSS version='2.0'><CHANNEL><TITLE>TV</TITLE></CHANNEL></RSS>".

(** What the HTML parser finds in these pages. *)

Definition soup_link_tags (body : string) : list link_tag :=
  if String.eqb body page_fc then
    [mkLink (Some "application/rss+xml") (Some "/feed.xml")]
  else if String.eqb body page_plain then
    [mkLink (Some "text/css") (Some "/s.css")]
  else if String.eqb body page_nohref then
    [mkLink (Some "application/rss+xml") None;
     mkLink (Some "application/atom+xml") (Some "/atom.xml")]
  else if String.eqb body page_badhref then
    [mkLink (Some "application/rss+xml") (Some "http://[")]
  else [].

Definition soup_anchors (body : string) : list anchor :=
  if String.eqb body page_badanchor then
    [mkAnchor "http://[::1" "Zum Liveticker"]
  else if String.eqb body page_sv_news then
    [mkAnchor "/news/pokalsieg" "Pokalsieg im Derby";
     mkAnchor "/impressum" "Impressum";
     mkAnchor "#top" "Nach oben";
     mkAnchor "/news/pokalsieg" "Mehr zum Pokalsieg";
     mkAnchor "/verein/jugend/u19/kader" "Kader der U19";
     mkAnchor "/?p=/blog" "Vereinsblog"]
  else [].

Definition html (body : string) : result response :=
  Ok (mkResponse 200 (Some "text/html; charset=utf-8") body).

Definition not_found : result response :=
  Ok (mkResponse 404 (Some "text/html") "Not Found").

(** The answers of the sites; a host that is not listed cannot be
    reached. *)
Definition site (u : string) : result response :=
  if String.eqb u "https://fc.example" then html page_fc
  else if String.eqb u "https://sv.example/" then html page_plain
  else if String.eqb u "https://sv.example/news" then html page_sv_news
  else if String.eqb u "https://tv.example" then html page_fc
  else if String.eqb u "https://nohref.example" then html page_nohref
  else if String.eqb u "https://badhref.example" then html page_badhref
  else if String.eqb u "https://upper.example" then html page_plain
  else if String.eqb u "https://upper.example/feed" then html body_upper_rss
  else if String.eqb u "https://badanchor.example" then html page_badanchor
  else if String.prefix "https://badanchor.example/" u then not_found
  else if String.eqb u "https://xml.example" then html page_plain
  else if String.eqb u "https://xml.example/rss" then
    Ok (mkResponse 200 (Some "application/rss+xml") "<rss version='2.0'/>")
  else if String.prefix "https://xml.example/" u then not_found
  else if String.prefix "https://sv.example/" u then not_found
  else if String.prefix "https://upper.example/" u then not_found
  else if String.prefix "https://nohref.example/" u then not_found
  else Raise RequestException.

Definition at_time (mm ss : Z) : option struct_time :=
  Some [2026; 11; 3; 11; mm; ss; 1; 307; 0].

Definition entry_pokal : entry :=
  mkEntry (Some "Pokalsieg - Spielbericht")
    (Some "https://fc.example/news/pokalsieg") None (Some "3:1 im Derby")
    (at_time 5 0) (Some "Tue, 03 Nov 2026 12:05:00 +0100") None.

Definition entry_training : entry :=
  mkEntry (Some "Training") None (Some "https://fc.example/news/training")
    None (at_time 7 30) None None.

Definition entry_pokal_again : entry :=
  mkEntry (Some "FC: Pokalsieg") (Some "https://fc.example/news/pokalsieg")
    None (Some "Nachbericht") (at_time 9 0) None None.

Definition entry_neuzugang : entry :=
  mkEntry (Some "Neuzugang") (Some "https://fc.example/news/neuzugang")
    None (Some "Verpflichtung") (at_time 40 0) None None.

(** An Atom entry with [<updated>] only, and an entry whose date
    feedparser could not read. *)
Definition entry_atom : entry :=
  mkEntry (Some "Heimspiel") (Some "https://tv.example/a/heimspiel") None
    None None None (Some "2026-11-03T11:20:00Z").

Definition entry_gestern : entry :=
  mkEntry (Some "Ehrung") (Some "https://tv.example/a/ehrung") None
    None None (Some "gestern") None.

(** The feeds; the one of the FC has a new entry from 11:30 on. *)
Definition feed (u : string) (clock : Z) : result (list entry) :=
  if String.eqb u "https://fc.example/feed.xml" then
    if clock <? 1800 then
      Ok [entry_pokal; entry_training; entry_pokal_again]
    else Ok [entry_neuzugang; entry_pokal; entry_training]
  else if String.eqb u "https://tv.example/feed.xml" then
    Ok [entry_atom; entry_gestern]
  else Raise FeedError.

(** The world is the clock; every reading of it takes a second. *)
Definition env : Env :=
  mkEnv
    (fun (rq : request) (clock : Z) => (site (rq_url rq), clock))
    (fun u clock => (feed u clock, clock))
    "feedparser/6.0.11 +https://github.com/kurtmckee/feedparser/"
    (fun clock => (clock, clock + 1))
    soup_link_tags soup_anchors urljoin urlparse_path
    format_datetime format_struct_time fromisoformat parsedate_to_datetime.

(** The runs of the examples. *)

Definition club_fc : club := mkClub (Some "FC") (Some "https://fc.example").
Definition club_sv : club := mkClub (Some "SV") (Some "https://sv.example/").
Definition club_tv : club := mkClub (Some "TV") (Some "https://tv.example").
Definition club_bad : club :=
  mkClub (Some "Bad") (Some "https://badhref.example").
Definition club_badanchor : club :=
  mkClub (Some "Anker") (Some "https://badanchor.example").
Definition club_without_url : club := mkClub (Some "Ohne") None.

Definition clubs : list club := [club_fc; club_sv; club_without_url].

(** The state at [clock] seconds after 11:00, nothing sent yet. *)
Definition net_at (clock : Z) : netstate env := mkNet (E := env) clock [].

(** A first run at 11:10 on a fresh store, and a second one at 11:30 on
    the store the first one leaves. *)
Definition start1 : aggstate env := (net_at 600, SeenStore.init).
Definition run1 : result (list item) * aggstate env :=
  Eval vm_compute in aggregate clubs start1.
Definition out1 : list item :=
  match fst run1 with Ok l => l | Raise _ => [] end.
Definition start2 : aggstate env := (net_at 1800, snd (snd run1)).
Definition run2 : result (list item) * aggstate env :=
  Eval vm_compute in aggregate clubs start2.
Definition out2 : list item :=
  match fst run2 with Ok l => l | Raise _ => [] end.

End Demo.

(* ===================================================================== *)
(** * The rest of the program: source list, feed document, main *)
(* ===================================================================== *)

Module PyText.

(** The ASCII characters [str.isspace] accepts. *)
Definition is_space (a : ascii) : bool :=
  let n := nat_of_ascii a in
  ((Nat.leb 9 n && Nat.leb n 13) || (Nat.leb 28 n && Nat.leb n 32))%bool.

Fixpoint lstrip (s : string) : string :=
  match s with
  | EmptyString => EmptyString
  | String a s' => if is_space a then lstrip s' else s
  end.

Fixpoint rstrip (s : string) : string :=
  match s with
  | EmptyString => EmptyString
  | String a s' =>
      let r := rstrip s' in
      if is_space a && String.eqb r "" then "" else String a r
  end.

(** [s.strip()] *)
Definition strip (s : string) : string := rstrip (lstrip s).

End PyText.

Module Clubs.

(** A row as [csv.DictReader] yields it: the cell of each column, [None]
    for a cell the line does not have. *)
Definition csv_row : Type := list (string * option string).

(** [row.get(key)] *)
Definition get (r : csv_row) (key : string) : option string :=
  match find (fun c => String.eqb (fst c) key) r with
  | Some c => snd c
  | None => None
  end.

(** [x.strip() if x else None] *)
Definition stripped (x : option string) : option string :=
  match x with
  | Some s => if PyStr.truthy s then Some (PyText.strip s) else None
  | None => None
  end.

(** The body of the loop over the rows. *)
Definition club_of_row (r : csv_row) : club :=
  let name := PyStr.or_else (get r "club") (get r "name") in
  let url :=
    PyStr.or_else (PyStr.or_else (get r "news_url") (get r "url")) None in
  mkClub (stripped name) (stripped url).

(** [load_clubs]: [None] stands for a file that does not exist, and the
    result [None] for the [FileNotFoundError] raised then. *)
Definition load_clubs (file : option (list csv_row)) : option (list club) :=
  match file with
  | None => None
  | Some rows => Some (map club_of_row rows)
  end.

End Clubs.

Module Rss.

(** An [xml.etree] element: tag, attributes, text and children. *)
#[warnings="-register-all"]
Inductive element : Type :=
| Elem (tag : string) (attrib : list (string * string))
       (text : option string) (children : list element).

(** [ET.SubElement(parent, tag).text = text] *)
Definition leaf (tag text : string) : element := Elem tag [] (Some text) [].

(** The element built for one item in the loop of [build_rss]. *)
Definition item_element (it : item) : element :=
  Elem "item" [] None
    [ leaf "title" (title it); leaf "link" (link it);
      leaf "description" (description it); leaf "pubDate" (pubDate it);
      leaf "guid" (link it) ].

(** The tree [build_rss] builds, with [build_date] for
    [format_datetime(datetime.utcnow())]. *)
Definition rss_tree (build_date : string) (items : list item) : element :=
  Elem "rss" [("version", "2.0")] None
    [ Elem "channel" [] None
        ([ leaf "title" "Aggregierte Vereins-News";
           leaf "link" "https://example.com/vereine-feed.xml";
           leaf "description"
             "Tagesaktuelle Nachrichten mehrerer deutscher Sportvereine";
           leaf "language" "de-DE";
           leaf "lastBuildDate" build_date ]
         ++ map item_element items) ].

(** Reading the tree back: the item an [item] element stands for. *)
Definition item_of_element (e : element) : option item :=
  match e with
  | Elem "item" [] None
      [ Elem "title" [] (Some t) []; Elem "link" [] (Some l) [];
        Elem "description" [] (Some d) []; Elem "pubDate" [] (Some p) [];
        Elem "guid" [] (Some g) [] ] =>
      if String.eqb g l then Some (mkItem t l d p) else None
  | _ => None
  end.

Fixpoint items_of_elements (es : list element) : option (list item) :=
  match es with
  | [] => Some []
  | e :: rest =>
      match item_of_element e, items_of_elements rest with
      | Some it, Some its => Some (it :: its)
      | _, _ => None
      end
  end.

(** The items of a feed document: the children of its channel after the
    five elements of the head. *)
Definition items_of_tree (e : element) : option (list item) :=
  match e with
  | Elem "rss" _ _ [Elem "channel" _ _ children] =>
      items_of_elements (skipn 5 children)
  | _ => None
  end.

End Rss.

(** The files of a run: the source list, [seen.db] and the feed written. *)
Record disk : Type := mkDisk {
  csv_file : option (list Clubs.csv_row);
  seen_db : option SeenStore.table;
  output_rss : option string
}.

(** How [main] ends. *)
Inductive ending : Type :=
| Finished (count : nat)      (* the number printed at the end *)
| FileNotFound                (* raised by [load_clubs] *)
| Crashed (e : exn).          (* raised by [aggregate] *)

Section Main.

Variable E : Env.

(** [ET.tostring(rss, encoding="utf-8", xml_declaration=True)] *)
Variable tostring : Rss.element -> string.

(** [build_rss] *)
Definition build_rss (items : list item) : IO E string :=
  t <- @now E ;;
  ret (tostring (Rss.rss_tree (format_datetime E t) items)).

(** [SeenStore()]: connects to [seen.db], creating file and table when
    they do not exist. *)
Definition open_store (d : disk) : SeenStore.table :=
  match seen_db d with
  | Some db => db
  | None => SeenStore.init
  end.

(** [main]: every [mark_seen] commits, so the table on disk is the one the
    run has reached, however it ends. *)
Definition main (st : netstate E * disk) : ending * (netstate E * disk) :=
  let (ns, d) := st in
  let db := open_store d in
  match Clubs.load_clubs (csv_file d) with
  | None => (FileNotFound, (ns, mkDisk (csv_file d) (Some db) (output_rss d)))
  | Some clubs =>
      match aggregate clubs (ns, db) with
      | (Raise e, (ns1, db1)) =>
          (Crashed e, (ns1, mkDisk (csv_file d) (Some db1) (output_rss d)))
      | (Ok items, (ns1, db1)) =>
          match build_rss items ns1 with
          | (Ok xml, ns2) =>
              (Finished (List.length items),
               (ns2, mkDisk (csv_file d) (Some db1) (Some xml)))
          | (Raise e, ns2) =>
              (Crashed e,
               (ns2, mkDisk (csv_file d) (Some db1) (output_rss d)))
          end
      end
  end.

End Main.

(* ===================================================================== *)
(** * Notions used to state further properties *)
(* ===================================================================== *)

Module Props.

(** The request [http_get] sends for [u]. *)
Definition get_request (u : string) : request :=
  mkRequest u (ua_headers USER_AGENT) (Some REQUEST_TIMEOUT).

(** The request that probes [u] (a candidate feed or a guessed page). *)
Definition probe_request (u : string) : request :=
  mkRequest u (ua_headers USER_AGENT) (Some 6).

(** The request feedparser makes for [u]. *)
Definition feed_request (E : Env) (u : string) : request :=
  mkRequest u (ua_headers (feedparser_agent E)) None.

(** A request of the program itself: its agent and a timeout of 6 or 12
    seconds. *)
Definition own_request (rq : request) : Prop :=
  rq_headers rq = ua_headers USER_AGENT
  /\ (rq_timeout rq = Some 6 \/ rq_timeout rq = Some 12).

(** A request of a run: one of the program itself, or the one feedparser
    makes for a feed. *)
Definition run_request (E : Env) (rq : request) : Prop :=
  own_request rq \/ exists u, rq = feed_request E u.

(** [m] adds at most [n] requests to the log, whatever the state. *)
Definition sends_at_most {S A : Type} (log : S -> list request) (n : nat)
  (m : M S A) : Prop :=
  forall st, exists new,
    log (snd (m st)) = log st ++ new /\ (List.length new <= n)%nat.

(** The source has a URL the aggregator uses. *)
Definition has_url (c : club) : bool := PyStr.truthy_opt (url c).




(** Equality of datetimes of one kind. *)
Definition dt_eqb (a b : datetime) : bool :=
  match a, b with
  | Naive x, Naive y => x =? y
  | Aware x, Aware y => x =? y
  | _, _ => false
  end.

(** The elements of a decorated list whose key is [k], in order. *)
Definition with_key (k : datetime) (l : list (datetime * item))
  : list (datetime * item) :=
  filter (fun y => dt_eqb (fst y) k) l.

(** The store [db'] is [db] with rows appended. *)
Definition grown (db db' : SeenStore.table) : Prop :=
  exists rows, db' = db ++ rows.

(** A step of the store: rows are appended only, and the UNIQUE constraint
    stays satisfied. *)
Definition store_step (db db' : SeenStore.table) : Prop :=
  grown db db'
  /\ (SeenStore.unique_guids db -> SeenStore.unique_guids db').

(** [m] changes the store by such steps only, however it ends. *)
Definition evolves (E : Env) (A : Type) (m : Agg E A) : Prop :=
  forall st, store_step (snd st) (snd (snd (m st))).

End Props.

(** Further example data. *)
Module Demo2.

(** A serializer for the examples: tags and text, nothing escaped. *)
Fixpoint tostring (e : Rss.element) : string :=
  match e with
  | Rss.Elem tag _ text children =>
      ("<" ++ tag ++ ">"
       ++ match text with Some t => t | None => "" end
       ++ String.concat "" (map tostring children)
       ++ "</" ++ tag ++ ">")%string
  end.

Definition rows : list Clubs.csv_row :=
  [ [("club", Some " FC "); ("news_url", Some "https://fc.example ")];
    [("club", Some ""); ("name", Some "SV"); ("news_url", Some "");
     ("url", Some "https://sv.example/")];
    [("club", Some "Ohne"); ("news_url", None)] ].

Definition disk_ok : disk := mkDisk (Some rows) None None.
Definition disk_without_csv : disk :=
  mkDisk None None (Some "<rss>old</rss>").

(** A run of [main] at 11:10 with the three rows above. *)
Definition main1 : ending * (netstate Demo.env * disk) :=
  Eval vm_compute in main tostring (Demo.net_at 600, disk_ok).

(** The first run of the TV, whose sort raises, and a later run on the
    store it leaves. *)
Definition tv_start : aggstate Demo.env := Demo.start1.
Definition tv_collect : result (list item) * aggstate Demo.env :=
  Eval vm_compute in collect [Demo.club_tv] tv_start.
Definition tv_items : list item :=
  match fst tv_collect with Ok l => l | Raise _ => [] end.
Definition tv_again : aggstate Demo.env :=
  (Demo.net_at 1800, snd (snd tv_collect)).
Definition tv_run2 : result (list item) * aggstate Demo.env :=
  Eval vm_compute in aggregate [Demo.club_tv] tv_again.





End Demo2.

(* ===================================================================== *)
(** * Strings and patterns *)
(* ===================================================================== *)

Lemma prefix_cons (a b : ascii) (p s : string) :
  String.prefix (String a p) (String b s) = Ascii.eqb b a && String.prefix p s.
Proof.
  simpl. destruct (ascii_dec a b) as [->|n].
  - now rewrite Ascii.eqb_refl.
  - destruct (Ascii.eqb_spec b a) as [e|_]; [congruence | reflexivity].
Qed.

Lemma prefix_nil_l (s : string) : String.prefix "" s = true.
Proof. now destruct s. Qed.

Lemma lower_char_idem (a : ascii) :
  PyStr.lower_char (PyStr.lower_char a) = PyStr.lower_char a.
Proof.
  destruct a as [[] [] [] [] [] [] [] []]; reflexivity.
Qed.


(** A literal, read case-sensitively at the start of the subject, is a
    prefix test. *)
Lemma matches_lit (p s : string) :
  Re.matches false (Re.lit p) s (fun _ => true) = String.prefix p s.
Proof.
  revert s. induction p as [|c p IH]; intros s.
  - now rewrite prefix_nil_l.
  - destruct s as [|a s]; [reflexivity|].
    rewrite prefix_cons. simpl. now rewrite IH.
Qed.


Lemma matches_cat_lit (ci : bool) (p q s : string) (k : string -> bool) :
  Re.matches ci (Re.Cat (Re.lit p) (Re.lit q)) s k
  = Re.matches ci (Re.lit (p ++ q)) s k.
Proof.
  revert s. induction p as [|c p IH]; intros s; [reflexivity|].
  destruct s as [|a s]; [reflexivity|].
  simpl. simpl in IH. now rewrite IH.
Qed.

Lemma search_ext (ci : bool) (r1 r2 : Re.regex) :
  (forall s, Re.matches ci r1 s (fun _ => true)
             = Re.matches ci r2 s (fun _ => true)) ->
  forall s, Re.search ci r1 s = Re.search ci r2 s.
Proof.
  intros H s. induction s as [|a s IH]; simpl; rewrite H; [reflexivity|].
  now rewrite IH.
Qed.

Lemma search_alt (ci : bool) (r1 r2 : Re.regex) (s : string) :
  Re.search ci (Re.Alt r1 r2) s = Re.search ci r1 s || Re.search ci r2 s.
Proof.
  induction s as [|a s IH]; simpl.
  - now rewrite !orb_false_r.
  - rewrite IH.
    destruct (Re.matches ci r1 (String a s) (fun _ => true)),
             (Re.matches ci r2 (String a s) (fun _ => true)),
             (Re.search ci r1 s), (Re.search ci r2 s); reflexivity.
Qed.

Lemma search_lit (p s : string) :
  Re.search false (Re.lit p) s = PyStr.contains p s.
Proof.
  induction s as [|a s IH]; simpl PyStr.contains; simpl Re.search;
    rewrite matches_lit; [reflexivity | now rewrite IH].
Qed.




(** The pattern of the [<link>] filter is found in [t] exactly when one of
    the three media types occurs in [t]. *)
Lemma feed_type_re_spec (t : string) :
  Re.search false FEED_TYPE_RE t
  = PyStr.contains "application/rss+xml" t
    || PyStr.contains "text/rss+xml" t
    || PyStr.contains "application/atom+xml" t.
Proof.
  unfold FEED_TYPE_RE. rewrite search_alt, search_lit. f_equal.
  rewrite <- !search_lit, <- search_alt.
  apply search_ext. intros s.
  change (Re.matches false
            (Re.Cat (Re.Alt (Re.lit "application") (Re.lit "text"))
               (Re.lit "/rss+xml")) s (fun _ => true))
    with (Re.matches false (Re.Cat (Re.lit "application") (Re.lit "/rss+xml"))
            s (fun _ => true)
          || Re.matches false (Re.Cat (Re.lit "text") (Re.lit "/rss+xml"))
               s (fun _ => true)).
  now rewrite !matches_cat_lit.
Qed.

Lemma feed_link_spec (lt : link_tag) : feed_link lt = Spec.declares_feed lt.
Proof.
  unfold feed_link, Spec.declares_feed.
  destruct (lt_type lt); [apply feed_type_re_spec | reflexivity].
Qed.

(** The pattern of the candidate test is case-sensitive. *)
Lemma feed_body_re_spec (body : string) :
  Re.search false FEED_BODY_RE body
  = PyStr.contains "<rss" body || PyStr.contains "<feed" body.
Proof.
  unfold FEED_BODY_RE. now rewrite search_alt, !search_lit.
Qed.


(* ===================================================================== *)
(** * The seen store *)
(* ===================================================================== *)

Lemma has_guid_true (g : string) (r : SeenStore.row) :
  SeenStore.has_guid g r = true <-> SeenStore.guid r = g.
Proof. apply String.eqb_eq. Qed.

Lemma is_seen_In (db : SeenStore.table) (g : string) :
  SeenStore.is_seen db g = true <-> In g (map SeenStore.guid db).
Proof.
  unfold SeenStore.is_seen. rewrite existsb_exists, in_map_iff.
  split; intros [r H]; exists r; rewrite has_guid_true in *; tauto.
Qed.

Lemma records_unseen (db : SeenStore.table) (g : string) :
  SeenStore.is_seen db g = false -> SeenStore.records db g = 0%nat.
Proof.
  unfold SeenStore.is_seen, SeenStore.records.
  induction db as [|r db IH]; simpl; [reflexivity|].
  destruct (SeenStore.has_guid g r); simpl; [discriminate | exact IH].
Qed.

Lemma records_seen (db : SeenStore.table) (g : string) :
  SeenStore.unique_guids db -> SeenStore.is_seen db g = true ->
  SeenStore.records db g = 1%nat.
Proof.
  unfold SeenStore.unique_guids.
  induction db as [|r db IH]; simpl; intros U S; [discriminate|].
  inversion U as [|? ? Hnotin U']; subst.
  unfold SeenStore.records. simpl.
  destruct (SeenStore.has_guid g r) eqn:Hr; simpl.
  - apply has_guid_true in Hr. subst g. f_equal.
    apply records_unseen.
    destruct (SeenStore.is_seen db (SeenStore.guid r)) eqn:S'; [|reflexivity].
    apply is_seen_In in S'. contradiction.
  - apply IH; assumption.
Qed.

Lemma insert_fresh (db : SeenStore.table) (g : string) (t : Z) :
  SeenStore.is_seen db g = false ->
  SeenStore.mark_seen db g t
  = (Ok tt, db ++ [SeenStore.mkRow (SeenStore.next_rowid db) g t]).
Proof.
  unfold SeenStore.mark_seen, SeenStore.insert, SeenStore.is_seen.
  now intros ->.
Qed.

Lemma insert_known (db : SeenStore.table) (g : string) (t : Z) :
  SeenStore.is_seen db g = true -> SeenStore.mark_seen db g t = (Ok tt, db).
Proof.
  unfold SeenStore.mark_seen, SeenStore.insert, SeenStore.is_seen.
  now intros ->.
Qed.

(** [mark_seen] never raises, records the identifier and forgets none. *)
Lemma mark_seen_spec (db : SeenStore.table) (g : string) (t : Z) :
  exists db',
    SeenStore.mark_seen db g t = (Ok tt, db')
    /\ SeenStore.is_seen db' g = true
    /\ (forall h, SeenStore.is_seen db h = true ->
                  SeenStore.is_seen db' h = true)
    /\ (forall h, h <> g -> SeenStore.is_seen db' h = SeenStore.is_seen db h).
Proof.
  destruct (SeenStore.is_seen db g) eqn:S.
  - exists db. rewrite insert_known by assumption. repeat split; auto.
  - eexists. rewrite insert_fresh by assumption. split; [reflexivity|].
    unfold SeenStore.is_seen. repeat split.
    + rewrite existsb_app. simpl. unfold SeenStore.has_guid at 2. simpl.
      now rewrite String.eqb_refl, orb_true_r.
    + intros h Hh. rewrite existsb_app. now rewrite Hh.
    + intros h Hh. rewrite existsb_app. simpl.
      unfold SeenStore.has_guid at 2. simpl.
      destruct (String.eqb_spec g h); [congruence|].
      now rewrite !orb_false_r.
Qed.

Lemma mark_seen_unique (db db' : SeenStore.table) (g : string) (t : Z)
  (r : result unit) :
  SeenStore.unique_guids db -> SeenStore.mark_seen db g t = (r, db') ->
  SeenStore.unique_guids db'.
Proof.
  intros U H. destruct (SeenStore.is_seen db g) eqn:S.
  - rewrite insert_known in H by assumption. now inversion H; subst.
  - rewrite insert_fresh in H by assumption. inversion H; subst.
    unfold SeenStore.unique_guids in *. rewrite map_app. simpl.
    apply NoDup_rev in U. rewrite <- (rev_involutive (_ ++ _)).
    apply NoDup_rev. rewrite rev_app_distr. simpl. constructor; [|exact U].
    rewrite <- in_rev. intros I. apply is_seen_In in I. congruence.
Qed.

(** C8: on a table that obeys its UNIQUE constraint, marking an identifier
    never raises, marking it a second time changes nothing (as does marking
    an identifier that is recorded already), and the table then holds
    exactly one record for it and still obeys the constraint. *)
Theorem C8_mark_seen_idempotent
  (db : SeenStore.table) (g : string) (t1 t2 : Z) :
  SeenStore.unique_guids db ->
  exists db1,
    SeenStore.mark_seen db g t1 = (Ok tt, db1)
    /\ SeenStore.mark_seen db1 g t2 = (Ok tt, db1)
    /\ SeenStore.records db1 g = 1%nat
    /\ SeenStore.unique_guids db1
    /\ (SeenStore.is_seen db g = true -> db1 = db).
Proof.
  intros U.
  destruct (mark_seen_spec db g t1) as (db1 & H1 & S1 & _).
  exists db1. split; [exact H1|].
  pose proof (mark_seen_unique _ _ U H1) as U1.
  repeat split.
  - now apply insert_known.
  - now apply records_seen.
  - exact U1.
  - intros S. rewrite insert_known in H1 by assumption. congruence.
Qed.

(** C8 at a table with two rows: the identifier of the second row is marked
    again, and a new one is marked twice. *)
Lemma C8_mark_seen_idempotent_witness :
  let db := [SeenStore.mkRow 1 "https://fc.example/a" 10;
             SeenStore.mkRow 2 "https://fc.example/b" 11] in
  SeenStore.unique_guids db
  /\ (exists db1,
        SeenStore.mark_seen db "https://fc.example/b" 20 = (Ok tt, db1)
        /\ SeenStore.mark_seen db1 "https://fc.example/b" 21 = (Ok tt, db1)
        /\ SeenStore.records db1 "https://fc.example/b" = 1%nat
        /\ SeenStore.unique_guids db1
        /\ (SeenStore.is_seen db "https://fc.example/b" = true -> db1 = db))
  /\ (exists db1,
        SeenStore.mark_seen db "https://fc.example/c" 20 = (Ok tt, db1)
        /\ SeenStore.mark_seen db1 "https://fc.example/c" 21 = (Ok tt, db1)
        /\ SeenStore.records db1 "https://fc.example/c" = 1%nat
        /\ SeenStore.unique_guids db1
        /\ (SeenStore.is_seen db "https://fc.example/c" = true -> db1 = db)).
Proof.
  assert (U : SeenStore.unique_guids
                [SeenStore.mkRow 1 "https://fc.example/a" 10;
                 SeenStore.mkRow 2 "https://fc.example/b" 11]).
  { unfold SeenStore.unique_guids. simpl.
    repeat constructor; simpl; intuition discriminate. }
  split; [exact U|].
  split; apply C8_mark_seen_idempotent; exact U.
Defined.

(* ===================================================================== *)
(** * Deduplication *)
(* ===================================================================== *)

Section Dedup.

Variable E : Env.

Lemma fresh_run_nil (db : SeenStore.table) : Spec.fresh_run db db [].
Proof.
  split; [constructor|]. split; [intros it []|auto].
Qed.

Lemma fresh_run_app (db0 db1 db2 : SeenStore.table) (k1 k2 : list item) :
  Spec.fresh_run db0 db1 k1 -> Spec.fresh_run db1 db2 k2 ->
  Spec.fresh_run db0 db2 (k1 ++ k2).
Proof.
  intros (N1 & F1 & M1) (N2 & F2 & M2). split; [|split].
  - rewrite map_app. apply NoDup_app; try assumption.
    intros g I1 I2. apply in_map_iff in I1 as (i1 & <- & I1).
    apply in_map_iff in I2 as (i2 & e & I2).
    destruct (F1 _ I1) as [_ S1]. destruct (F2 _ I2) as [S2 _].
    rewrite e in S2. congruence.
  - intros it I. apply in_app_or in I as [I|I].
    + destruct (F1 _ I) as [S0 S1]. split; [exact S0 | now apply M2].
    + destruct (F2 _ I) as [S1 S2]. split; [|exact S2].
      destruct (SeenStore.is_seen db0 (link it)) eqn:S0; [|reflexivity].
      apply M1 in S0. congruence.
  - intros g S. now apply M2, M1.
Qed.

(** [mark_seen] inside a run: it reads the clock and never raises. *)
Lemma mark_seen_run (g : string) (st : aggstate E) :
  exists st',
    mark_seen g st = (Ok tt, st')
    /\ sent (fst st') = sent (fst st)
    /\ SeenStore.is_seen (snd st') g = true
    /\ (forall h, SeenStore.is_seen (snd st) h = true ->
                  SeenStore.is_seen (snd st') h = true).
Proof.
  unfold mark_seen. destruct (utcnow E (world (fst st))) as [t w].
  destruct (mark_seen_spec (snd st) g t) as (db' & -> & S & Mo & _).
  eexists. split; [reflexivity|]. simpl. auto.
Qed.

(** The law of one step of the loop: an item whose link is recorded is
    dropped and the state is left alone. *)
Lemma dedup_seen (it : item) (rest : list item) (st : aggstate E) :
  SeenStore.is_seen (snd st) (link it) = true ->
  dedup (it :: rest) st = dedup rest st.
Proof.
  intros S. simpl. unfold bind at 1, is_seen. now rewrite S.
Qed.

(** An item whose link is not recorded is kept, after its link has been
    recorded. *)
Lemma dedup_unseen (it : item) (rest : list item) (st : aggstate E) :
  SeenStore.is_seen (snd st) (link it) = false ->
  exists st1,
    mark_seen (link it) st = (Ok tt, st1)
    /\ SeenStore.is_seen (snd st1) (link it) = true
    /\ dedup (it :: rest) st
       = (match fst (dedup rest st1) with
          | Ok kept => Ok (it :: kept)
          | Raise e => Raise e
          end, snd (dedup rest st1)).
Proof.
  intros S. destruct (mark_seen_run (link it) st) as (st1 & H & _ & S1 & _).
  exists st1. repeat split; try assumption.
  simpl. unfold bind at 1, is_seen. rewrite S.
  unfold bind at 1. rewrite H. unfold bind, ret.
  destruct (dedup rest st1) as [[kept|e] st2]; reflexivity.
Qed.

(** The loop never raises and sends nothing. *)
Lemma dedup_spec (items : list item) (st : aggstate E) :
  exists kept st',
    dedup items st = (Ok kept, st')
    /\ sent (fst st') = sent (fst st)
    /\ Spec.fresh_run (snd st) (snd st') kept
    /\ (forall it, In it kept -> In it items).
Proof.
  revert st. induction items as [|it rest IH]; intros st.
  - exists [], st. split; [reflexivity|]. split; [reflexivity|].
    split; [apply fresh_run_nil | auto].
  - destruct (SeenStore.is_seen (snd st) (link it)) eqn:S.
    + rewrite dedup_seen by assumption.
      destruct (IH st) as (kept & st' & H & T & F & I).
      exists kept, st'. split; [exact H|]. split; [exact T|].
      split; [exact F|]. intros x Hx. right. now apply I.
    + destruct (dedup_unseen it rest st S) as (st1 & Hm & S1 & ->).
      destruct (mark_seen_run (link it) st) as (st1' & Hm' & T1 & _ & Mo).
      assert (st1' = st1) by congruence. subst st1'.
      destruct (IH st1) as (kept & st' & H & T & (N & F & Mo') & I).
      rewrite H. simpl. exists (it :: kept), st'.
      split; [reflexivity|]. split; [congruence|]. split; [split; [|split]|].
      * simpl. constructor; [|exact N].
        intros J. apply in_map_iff in J as (x & e & J).
        destruct (F _ J) as [Sx _]. rewrite e in Sx. congruence.
      * intros x [<-|J].
        -- split; [exact S | now apply Mo'].
        -- destruct (F _ J) as [Sx Sx']. split; [|exact Sx'].
           destruct (SeenStore.is_seen (snd st) (link x)) eqn:S0;
             [|reflexivity].
           apply Mo in S0. congruence.
      * intros g Sg. now apply Mo', Mo.
      * intros x [<-|J]; [now left | right; now apply I].
Qed.

Lemma lift_store {A : Type} (m : IO E A) (st st' : aggstate E)
  (r : result A) :
  lift m st = (r, st') -> snd st' = snd st.
Proof.
  unfold lift. destruct (m (fst st)) as [r0 ns]. now intros [= _ <-].
Qed.

Lemma process_club_fresh (c : club) (st st' : aggstate E)
  (kept : list item) :
  process_club c st = (Ok kept, st') ->
  Spec.fresh_run (snd st) (snd st') kept.
Proof.
  unfold process_club, bind, of_result.
  destruct (lift (source_items_of c) st) as [[src|e] st1] eqn:L;
    [|discriminate].
  apply lift_store in L.
  destruct (attribute_all (name c) src) as [attributed|e]; [|discriminate].
  destruct (dedup_spec attributed st1) as (k & st2 & -> & _ & F & _).
  intros [= <- <-]. now rewrite <- L.
Qed.

Lemma collect_fresh (clubs : list club) (st st' : aggstate E)
  (kept : list item) :
  collect clubs st = (Ok kept, st') ->
  Spec.fresh_run (snd st) (snd st') kept.
Proof.
  revert st kept. induction clubs as [|c rest IH]; intros st kept.
  - intros [= <- <-]. apply fresh_run_nil.
  - simpl. unfold bind at 1.
    destruct (process_club c st) as [[k1|e] st1] eqn:P; [|discriminate].
    unfold bind, ret.
    destruct (collect rest st1) as [[k2|e] st2] eqn:C; [|discriminate].
    intros [= <- <-].
    eapply fresh_run_app; [eapply process_club_fresh | eapply IH]; eassumption.
Qed.

End Dedup.

(* ===================================================================== *)
(** * Sorting by date *)
(* ===================================================================== *)

Section Sorting.

Variable E : Env.

(** [parse_date] returns a datetime for every string: it tries
    [fromisoformat] on the string with [Z] replaced, then
    [parsedate_to_datetime], then reads the clock. *)
Lemma parse_date_total (s : string) (st : netstate E) :
  exists d st', parse_date s st = (Ok d, st').
Proof.
  unfold parse_date.
  destruct (fromisoformat E _); [eexists _, _; reflexivity|].
  destruct (parsedate_to_datetime E _); [eexists _, _; reflexivity|].
  unfold bind, now, ret. destruct (utcnow E (world st)).
  eexists _, _; reflexivity.
Qed.

Lemma parse_date_iso (s : string) (d : datetime) (st : netstate E) :
  fromisoformat E (PyStr.replace "Z" "+00:00" s) = Ok d ->
  parse_date s st = (Ok d, st).
Proof. unfold parse_date. now intros ->. Qed.

Lemma parse_date_rfc (s : string) (d : datetime) (e : exn)
  (st : netstate E) :
  fromisoformat E (PyStr.replace "Z" "+00:00" s) = Raise e ->
  parsedate_to_datetime E s = Ok d ->
  parse_date s st = (Ok d, st).
Proof. unfold parse_date. now intros -> ->. Qed.

Lemma parse_date_now (s : string) (e1 e2 : exn) (st : netstate E) :
  fromisoformat E (PyStr.replace "Z" "+00:00" s) = Raise e1 ->
  parsedate_to_datetime E s = Raise e2 ->
  parse_date s st
  = (Ok (Naive (fst (utcnow E (world st)))),
     mkNet (snd (utcnow E (world st))) (sent st)).
Proof.
  unfold parse_date. intros -> ->. unfold bind, now, ret.
  now destruct (utcnow E (world st)).
Qed.

(** The keys are computed for all items, in order, without a request. *)
Lemma keyed_spec (items : list item) (st : netstate E) :
  exists d st',
    keyed items st = (Ok d, st')
    /\ map snd d = items
    /\ sent st' = sent st.
Proof.
  revert st. induction items as [|it rest IH]; intros st.
  - exists [], st. auto.
  - simpl. unfold bind at 1.
    assert (P : exists k st1, parse_date (pubDate it) st = (Ok k, st1)
                              /\ sent st1 = sent st).
    { unfold parse_date.
      destruct (fromisoformat E _); [eexists _, _; split; reflexivity|].
      destruct (parsedate_to_datetime E _);
        [eexists _, _; split; reflexivity|].
      unfold bind, now, ret. destruct (utcnow E (world st)).
      eexists _, _; split; reflexivity. }
    destruct P as (k & st1 & -> & T1).
    destruct (IH st1) as (d & st' & H & Hd & T).
    unfold bind, ret. rewrite H.
    exists ((k, it) :: d), st'. split; [reflexivity|].
    split; [simpl; now rewrite Hd | congruence].
Qed.

Lemma dt_lt_asym (a b : datetime) :
  dt_lt a b = Ok true -> dt_lt b a = Ok false.
Proof.
  destruct a, b; simpl; try discriminate; intros [= H];
    f_equal; apply Z.ltb_lt in H; apply Z.ltb_ge; lia.
Qed.

Lemma insert_desc_perm (x : datetime * item) (l r : list (datetime * item)) :
  insert_desc x l = Ok r -> Permutation (x :: l) r.
Proof.
  revert r. induction l as [|y l IH]; intros r; simpl.
  - now intros [= <-].
  - destruct (dt_lt (fst x) (fst y)) as [[|]|e]; try discriminate.
    + destruct (insert_desc x l) as [r'|e]; [|discriminate].
      intros [= <-]. rewrite perm_swap. now constructor; apply IH.
    + now intros [= <-].
Qed.

Lemma insert_desc_head (x : datetime * item) (l r : list (datetime * item))
  (z : datetime) :
  insert_desc x l = Ok r ->
  (forall y l', l = y :: l' -> dt_lt z (fst y) = Ok false) ->
  dt_lt z (fst x) = Ok false ->
  forall y r', r = y :: r' -> dt_lt z (fst y) = Ok false.
Proof.
  destruct l as [|y0 l0]; simpl.
  - intros [= <-] _ Hx y r' [= <- <-]. exact Hx.
  - destruct (dt_lt (fst x) (fst y0)) as [[|]|e]; try discriminate.
    + destruct (insert_desc x l0) as [r0|e]; [|discriminate].
      intros [= <-] Hl _ y r' [= <- <-]. now apply (Hl y0 l0).
    + intros [= <-] _ Hx y r' [= <- <-]. exact Hx.
Qed.

Lemma non_increasing_cons (a : datetime) (ks : list datetime) :
  Spec.non_increasing ks ->
  (forall b ks', ks = b :: ks' -> dt_lt a b = Ok false) ->
  Spec.non_increasing (a :: ks).
Proof.
  destruct ks as [|b ks']; simpl; [auto|].
  intros N H. split; [now apply (H b ks') | exact N].
Qed.

Lemma non_increasing_tail (a : datetime) (ks : list datetime) :
  Spec.non_increasing (a :: ks) -> Spec.non_increasing ks.
Proof. destruct ks; simpl; tauto. Qed.

Lemma insert_desc_sorted (x : datetime * item)
  (l r : list (datetime * item)) :
  insert_desc x l = Ok r ->
  Spec.non_increasing (Spec.keys l) -> Spec.non_increasing (Spec.keys r).
Proof.
  revert r. induction l as [|y l IH]; intros r; simpl.
  - intros [= <-] _. exact I.
  - destruct (dt_lt (fst x) (fst y)) as [[|]|e] eqn:C; try discriminate.
    + destruct (insert_desc x l) as [r'|e] eqn:Ins; [|discriminate].
      intros [= <-] N.
      change (Spec.keys (y :: r')) with (fst y :: Spec.keys r').
      apply non_increasing_cons.
      * apply IH; [reflexivity|]. eapply non_increasing_tail. exact N.
      * intros b ks' Hk. destruct r' as [|y' r'']; [discriminate|].
        injection Hk as <- _.
        eapply insert_desc_head; [exact Ins | | |reflexivity].
        -- intros y1 l1 ->. simpl in N. tauto.
        -- now apply dt_lt_asym.
    + intros [= <-] N.
      change (Spec.keys (x :: y :: l)) with (fst x :: Spec.keys (y :: l)).
      apply non_increasing_cons; [exact N|].
      intros b ks' [= <- _]. exact C.
Qed.

(** When the sort returns, it returns a rearrangement of its input whose
    keys are non-increasing. *)
Lemma sort_desc_spec (l s : list (datetime * item)) :
  sort_desc l = Ok s -> Permutation l s /\ Spec.non_increasing (Spec.keys s).
Proof.
  revert s. induction l as [|x l IH]; intros s; simpl.
  - intros [= <-]. split; [constructor | exact I].
  - destruct (sort_desc l) as [s'|e]; [|discriminate].
    destruct (IH s' eq_refl) as [P N]. intros Ins. split.
    + rewrite <- (insert_desc_perm _ _ Ins). now constructor.
    + eapply insert_desc_sorted; eassumption.
Qed.

(** The sort raises as soon as one datetime is naive and another aware;
    the exception is the [TypeError] of the comparison. *)
Lemma insert_desc_kind (x : datetime * item) (l : list (datetime * item)) :
  Forall (fun y => Spec.is_naive (fst y) = Spec.is_naive (fst x)) l ->
  exists r, insert_desc x l = Ok r.
Proof.
  induction 1 as [|y l Hy _ [r IH]]; simpl; [eauto|].
  destruct x as [[a|a] i], y as [[b|b] j]; simpl in *; try discriminate;
    rewrite IH; destruct (a <? b); eauto.
Qed.

Lemma insert_desc_other_kind (x y : datetime * item)
  (l : list (datetime * item)) :
  Spec.is_naive (fst y) <> Spec.is_naive (fst x) ->
  insert_desc x (y :: l) = Raise TypeError.
Proof.
  destruct x as [[a|a] i], y as [[b|b] j]; simpl; congruence.
Qed.

Lemma sort_desc_same_kind (l : list (datetime * item)) (b : bool) :
  Forall (fun y => Spec.is_naive (fst y) = b) l ->
  exists s, sort_desc l = Ok s.
Proof.
  induction 1 as [|x l Hx Hl [s IH]]; simpl; [eauto|].
  rewrite IH. apply insert_desc_kind.
  destruct (sort_desc_spec _ IH) as [P _].
  eapply Permutation_Forall in Hl; [|exact P].
  eapply Forall_impl; [|exact Hl]. simpl. congruence.
Qed.

Lemma sort_desc_mixed (l : list (datetime * item)) :
  Spec.mixed (Spec.keys l) = true -> sort_desc l = Raise TypeError.
Proof.
  unfold Spec.mixed, Spec.keys.
  induction l as [|x l IH]; [discriminate|].
  cbn [map existsb sort_desc].
  destruct (existsb Spec.is_naive (map fst l)
            && existsb (fun d => negb (Spec.is_naive d)) (map fst l)) eqn:Ml.
  - intros _. now rewrite IH.
  - intros Mx.
    assert (Hl : Forall (fun y => Spec.is_naive (fst y)
                                  = negb (Spec.is_naive (fst x))) l
                 /\ l <> []).
    { apply andb_true_iff in Mx as [M1 M2].
      apply andb_false_iff in Ml.
      destruct (Spec.is_naive (fst x)) eqn:Kx; simpl in *.
      - destruct Ml as [Ml|Ml]; [|congruence]. split.
        + apply Forall_forall. intros y Hy.
          destruct (Spec.is_naive (fst y)) eqn:Ky; [|reflexivity].
          assert (existsb Spec.is_naive (map fst l) = true); [|congruence].
          apply existsb_exists. exists (fst y). split; [|exact Ky].
          now apply in_map.
        + intros ->. discriminate.
      - destruct Ml as [Ml|Ml]; [congruence|]. split.
        + apply Forall_forall. intros y Hy.
          destruct (Spec.is_naive (fst y)) eqn:Ky; [reflexivity|].
          assert (existsb (fun d => negb (Spec.is_naive d)) (map fst l)
                  = true); [|congruence].
          apply existsb_exists. exists (fst y). split; [now apply in_map|].
          now rewrite Ky.
        + intros ->. discriminate. }
    destruct Hl as [Hl Hne].
    destruct (sort_desc_same_kind Hl) as [s Hs]. rewrite Hs.
    destruct (sort_desc_spec _ Hs) as [P _].
    destruct s as [|y s'].
    { apply Permutation_sym, Permutation_nil in P. contradiction. }
    apply insert_desc_other_kind.
    eapply Permutation_Forall in Hl; [|exact P].
    inversion Hl as [|? ? Hy _]; subst. rewrite Hy.
    now destruct (Spec.is_naive (fst x)).
Qed.

End Sorting.

(* ===================================================================== *)
(** * The aggregator *)
(* ===================================================================== *)

Section Aggregate.

Variable E : Env.

(** A run that returns has collected [all_items], computed their keys and
    sorted them; the store is the one the collection left. *)
Lemma aggregate_inv (clubs : list club) (st st' : aggstate E)
  (out : list item) :
  aggregate clubs st = (Ok out, st') ->
  exists all_items st1 decorated sorted,
    collect clubs st = (Ok all_items, st1)
    /\ keyed all_items (fst st1) = (Ok decorated, fst st')
    /\ snd st' = snd st1
    /\ map snd decorated = all_items
    /\ sort_desc decorated = Ok sorted
    /\ out = map snd sorted.
Proof.
  unfold aggregate, bind at 1.
  destruct (collect clubs st) as [[all_items|e] st1] eqn:C; [|discriminate].
  unfold sort_by_date, bind at 1, lift.
  destruct (keyed_spec all_items (fst st1)) as (d & ns & K & Hd & _).
  rewrite K. unfold bind, of_result, ret.
  destruct (sort_desc d) as [sorted|e] eqn:S; [|discriminate].
  intros [= <- <-]. exists all_items, st1, d, sorted.
  split; [reflexivity|]. split; [exact K|]. split; [reflexivity|].
  split; [exact Hd|]. split; [exact S | reflexivity].
Qed.

Lemma aggregate_perm (clubs : list club) (st st' : aggstate E)
  (out : list item) :
  aggregate clubs st = (Ok out, st') ->
  exists all_items st1,
    collect clubs st = (Ok all_items, st1)
    /\ snd st' = snd st1
    /\ Permutation all_items out.
Proof.
  intros H. apply aggregate_inv in H
    as (all_items & st1 & d & sorted & C & _ & D & Hd & S & ->).
  exists all_items, st1. split; [exact C|]. split; [exact D|].
  rewrite <- Hd. apply Permutation_map. now apply sort_desc_spec.
Qed.

Lemma aggregate_fresh (clubs : list club) (st st' : aggstate E)
  (out : list item) :
  aggregate clubs st = (Ok out, st') ->
  Spec.fresh_run (snd st) (snd st') out.
Proof.
  intros H. apply aggregate_perm in H as (all_items & st1 & C & D & P).
  apply collect_fresh in C. rewrite D. destruct C as (N & F & Mo).
  split; [|split].
  - eapply Permutation_NoDup; [|exact N]. now apply Permutation_map.
  - intros it I. apply F. eapply Permutation_in; [|exact I].
    now apply Permutation_sym.
  - exact Mo.
Qed.

(** The output of a run that returns is sorted by the keys computed for
    the sort: they are non-increasing. *)
Lemma aggregate_sorted (clubs : list club) (st st' : aggstate E)
  (out : list item) :
  aggregate clubs st = (Ok out, st') ->
  exists sorted,
    out = map snd sorted /\ Spec.non_increasing (Spec.keys sorted).
Proof.
  intros H. apply aggregate_inv in H
    as (all_items & st1 & d & sorted & _ & _ & _ & _ & S & ->).
  exists sorted. split; [reflexivity|]. exact (proj2 (sort_desc_spec _ S)).
Qed.

End Aggregate.

(** C1: in the loop that builds [new_items], an item whose link is recorded
    is dropped, and an item whose link is not recorded is kept after its
    link has been recorded.  For a run that returns, no link of an output
    item was recorded when the run started and all are recorded when it
    ends; hence two runs, the second on the store the first one left, have
    no link in common in their outputs. *)
Theorem C1_monotone_dedup (E : Env) (clubs1 clubs2 : list club)
  (st1 st1' st2 st2' : aggstate E) (out1 out2 : list item) :
  aggregate clubs1 st1 = (Ok out1, st1') ->
  snd st2 = snd st1' ->
  aggregate clubs2 st2 = (Ok out2, st2') ->
  (forall it rest (st : aggstate E),
     SeenStore.is_seen (snd st) (link it) = true ->
     dedup (it :: rest) st = dedup rest st)
  /\ (forall it rest (st : aggstate E),
        SeenStore.is_seen (snd st) (link it) = false ->
        exists st_m,
          mark_seen (link it) st = (Ok tt, st_m)
          /\ SeenStore.is_seen (snd st_m) (link it) = true
          /\ dedup (it :: rest) st
             = (match fst (dedup rest st_m) with
                | Ok kept => Ok (it :: kept)
                | Raise e => Raise e
                end, snd (dedup rest st_m)))
  /\ (forall it, In it out1 ->
        SeenStore.is_seen (snd st1) (link it) = false
        /\ SeenStore.is_seen (snd st1') (link it) = true)
  /\ (forall it, In it out2 ->
        SeenStore.is_seen (snd st2) (link it) = false
        /\ SeenStore.is_seen (snd st2') (link it) = true)
  /\ (forall it1 it2, In it1 out1 -> In it2 out2 -> link it1 <> link it2).
Proof.
  intros R1 Hdb R2.
  apply aggregate_fresh in R1 as (_ & F1 & _).
  apply aggregate_fresh in R2 as (_ & F2 & _).
  split; [apply dedup_seen|]. split; [apply dedup_unseen|].
  split; [exact F1|]. split; [exact F2|].
  intros it1 it2 I1 I2 e.
  destruct (F1 _ I1) as [_ S1]. destruct (F2 _ I2) as [S2 _].
  rewrite Hdb, <- e in S2. congruence.
Qed.

(** C1 at the two example runs: the first returns five items, the second,
    half an hour later on the same store, the one entry that is new. *)
Lemma C1_monotone_dedup_witness :
  aggregate Demo.clubs Demo.start1 = (Ok Demo.out1, snd Demo.run1)
  /\ snd Demo.start2 = snd (snd Demo.run1)
  /\ aggregate Demo.clubs Demo.start2 = (Ok Demo.out2, snd Demo.run2)
  /\ List.length Demo.out1 = 5%nat
  /\ map link Demo.out2 = ["https://fc.example/news/neuzugang"]
  /\ (forall it1 it2,
        In it1 Demo.out1 -> In it2 Demo.out2 -> link it1 <> link it2).
Proof.
  assert (R1 : aggregate Demo.clubs Demo.start1
               = (Ok Demo.out1, snd Demo.run1)) by (vm_compute; reflexivity).
  assert (R2 : aggregate Demo.clubs Demo.start2
               = (Ok Demo.out2, snd Demo.run2)) by (vm_compute; reflexivity).
  split; [exact R1|]. split; [reflexivity|]. split; [exact R2|].
  split; [reflexivity|]. split; [reflexivity|].
  exact (proj2 (proj2 (proj2 (proj2
           (@C1_monotone_dedup Demo.env Demo.clubs Demo.clubs
              _ _ Demo.start2 _ _ _ R1 eq_refl R2))))).
Defined.

(** C10: the links of the items a run returns are pairwise different. *)
Theorem C10_no_duplicate_links (E : Env) (clubs : list club)
  (st st' : aggstate E) (out : list item) :
  aggregate clubs st = (Ok out, st') ->
  NoDup (map link out).
Proof.
  intros R. now apply aggregate_fresh in R as (N & _ & _).
Qed.

(** C10 at the first example run: the feed of the FC lists one link twice,
    the page of the SV links one article twice; the output has each once. *)
Lemma C10_no_duplicate_links_witness :
  aggregate Demo.clubs Demo.start1 = (Ok Demo.out1, snd Demo.run1)
  /\ map link Demo.out1
     = ["https://sv.example/?p=/blog";
        "https://sv.example/verein/jugend/u19/kader";
        "https://sv.example/news/pokalsieg";
        "https://fc.example/news/training";
        "https://fc.example/news/pokalsieg"]
  /\ NoDup (map link Demo.out1).
Proof.
  assert (R1 : aggregate Demo.clubs Demo.start1
               = (Ok Demo.out1, snd Demo.run1)) by (vm_compute; reflexivity).
  split; [exact R1|]. split; [reflexivity|].
  exact (@C10_no_duplicate_links Demo.env Demo.clubs _ _ _ R1).
Defined.

(* ===================================================================== *)
(** * Attribution *)
(* ===================================================================== *)

Lemma attribute_spec (n : string) (it : item) :
  attribute (Some n) it = Ok (Spec.attributed n it).
Proof.
  unfold attribute, Spec.attributed, Spec.attributed_title.
  destruct (PyStr.contains " - " (title it)); simpl; [reflexivity|].
  destruct (PyStr.startswith (title it) (n ++ ":")); reflexivity.
Qed.



(* ===================================================================== *)
(** * Feed discovery *)
(* ===================================================================== *)

Section Discovery.

Variable E : Env.

Lemma http_get_sent (u : string) (st st1 : netstate E)
  (r : result response) :
  http_get u st = (r, st1) ->
  sent st1
  = sent st ++ [mkRequest u (ua_headers USER_AGENT) (Some REQUEST_TIMEOUT)].
Proof.
  unfold http_get, bind, requests_get, perform, raise_for_status, raise, ret.
  destruct (send E _ (world st)) as [[rr|e] w].
  - destruct ((400 <=? status_code rr) && (status_code rr <? 600));
      now intros [= _ <-].
  - now intros [= _ <-].
Qed.

(** A failure of the first request is caught: no feed. *)
Lemma discover_fetch_failed (u : string) (st st1 : netstate E) (e : exn) :
  http_get u st = (Raise e, st1) ->
  discover_rss_from_url u st = (Ok None, st1).
Proof.
  intros H. unfold discover_rss_from_url, bind, attempt. now rewrite H.
Qed.

Lemma discover_fetched (u : string) (st st1 : netstate E) (r : response) :
  http_get u st = (Ok r, st1) ->
  discover_rss_from_url u st
  = match first_href (filter feed_link (soup_link_tags E (text r))) with
    | Some href =>
        (match urljoin E u href with
         | Ok j => Ok (Some j)
         | Raise e => Raise e
         end, st1)
    | None => probe_candidates (feed_candidates u) st1
    end.
Proof.
  intros H. unfold discover_rss_from_url, bind at 1, attempt. rewrite H.
  destruct (first_href _); [|reflexivity].
  unfold bind, of_result, ret. now destruct (urljoin E u s).
Qed.


Lemma first_href_none (lts : list link_tag) :
  Forall (fun l => PyStr.truthy_opt (lt_href l) = false) lts ->
  first_href lts = None.
Proof.
  induction 1 as [|l lts Hl _ IH]; simpl; [reflexivity | now rewrite Hl].
Qed.

Lemma filter_feed_link (lts : list link_tag) :
  filter feed_link lts = filter Spec.declares_feed lts.
Proof. apply filter_ext. exact feed_link_spec. Qed.

(** When no matching element has an [href], discovery goes on to probe the
    candidates. *)
Lemma discover_without_href (u : string) (st st1 : netstate E)
  (r : response) :
  http_get u st = (Ok r, st1) ->
  Forall (fun l => PyStr.truthy_opt (lt_href l) = false)
    (filter Spec.declares_feed (soup_link_tags E (text r))) ->
  discover_rss_from_url u st = probe_candidates (feed_candidates u) st1.
Proof.
  intros H F. rewrite (discover_fetched _ _ H), filter_feed_link.
  now rewrite first_href_none.
Qed.

Lemma looks_like_feed_spec (rr : response) :
  looks_like_feed rr = Spec.accepts_exact rr.
Proof.
  unfold looks_like_feed, Spec.accepts_exact.
  now rewrite feed_body_re_spec, orb_assoc.
Qed.

Lemma probe_raise (c : string) (rest : list string) (st st1 : netstate E)
  (e : exn) :
  Spec.probe c st = (Raise e, st1) ->
  probe_candidates (c :: rest) st = probe_candidates rest st1.
Proof.
  unfold Spec.probe. intros H. simpl. unfold bind, attempt. now rewrite H.
Qed.

Lemma probe_answer (c : string) (rest : list string) (st st1 : netstate E)
  (rr : response) :
  Spec.probe c st = (Ok rr, st1) ->
  probe_candidates (c :: rest) st
  = if Spec.accepts_exact rr then (Ok (Some c), st1)
    else probe_candidates rest st1.
Proof.
  unfold Spec.probe. intros H. simpl. unfold bind, attempt. rewrite H.
  rewrite looks_like_feed_spec. now destruct (Spec.accepts_exact rr).
Qed.


Lemma probing_accepts_exact (cs : list string) (st : netstate E) :
  Spec.probing_accepts Spec.accepts_exact cs st.
Proof.
  revert st. induction cs as [|c0 rest IH]; intros st c st'.
  - split.
    + discriminate.
    + intros (pre & post & _ & _ & H & _). now destruct pre.
  - destruct (Spec.probe c0 st) as [[rr|e] st1] eqn:P.
    + rewrite (probe_answer _ rest _ P).
      destruct (Spec.accepts_exact rr) eqn:A.
      * split.
        -- intros [= <- <-]. exists [], rest, st, rr.
           repeat split; try assumption. constructor.
        -- intros (pre & post & st_mid & rr' & Hcs & R & P' & A').
           destruct pre as [|p pre]; injection Hcs as <- _.
           ++ inversion R; subst. rewrite P in P'. now inversion P'.
           ++ inversion R as [| ? ? ? ? ? ? Pr | ? ? ? ? ? ? Pa Af]; subst;
                rewrite P in *; congruence.
      * split.
        -- intros H. apply IH in H
             as (pre & post & st_mid & rr' & -> & R & P' & A').
           exists (c0 :: pre), post, st_mid, rr'.
           repeat split; try assumption.
           eapply Spec.rejected_answer; eassumption.
        -- intros (pre & post & st_mid & rr' & Hcs & R & P' & A').
           destruct pre as [|p pre]; injection Hcs as <- Hrest.
           ++ inversion R; subst. rewrite P in P'. congruence.
           ++ inversion R as [| ? ? ? ? ? ? Pr R' | ? ? ? ? ? ? Pa Af R'];
                subst; rewrite P in *; [discriminate|].
              injection Pa as <- <-.
              apply IH. exists pre, post, st_mid, rr'. auto.
    + rewrite (probe_raise _ rest _ P). split.
      * intros H. apply IH in H
          as (pre & post & st_mid & rr' & -> & R & P' & A').
        exists (c0 :: pre), post, st_mid, rr'.
        repeat split; try assumption.
        eapply Spec.rejected_raise; eassumption.
      * intros (pre & post & st_mid & rr' & Hcs & R & P' & A').
        destruct pre as [|p pre]; injection Hcs as <- Hrest.
        -- inversion R; subst. rewrite P in P'. discriminate.
        -- inversion R as [| ? ? ? ? ? ? Pr R' | ? ? ? ? ? ? Pa Af R'];
             subst; rewrite P in *; [|discriminate].
           injection Pr as _ <-.
           apply IH. exists pre, post, st_mid, rr'. auto.
Qed.

End Discovery.




(** C6, as stated, fails: the first candidate of [upper.example] answers
    with status 200 and a body that has the tag [<RSS] in upper case, which
    the specification accepts, and the probing returns no candidate. *)
Lemma C6_counterexample :
  ~ Spec.probing_accepts Spec.accepts
      (feed_candidates "https://upper.example") (Demo.net_at 600).
Proof.
  intros H.
  pose (c := "https://upper.example/feed").
  pose (rq := mkRequest c (ua_headers USER_AGENT) (Some 6)).
  destruct (H c (mkNet (E := Demo.env) 600 [rq])) as [_ H'].
  assert (A : Spec.first_accepted Spec.accepts
                (feed_candidates "https://upper.example") (Demo.net_at 600)
                c (mkNet (E := Demo.env) 600 [rq])).
  { exists [], (tl (feed_candidates "https://upper.example")),
      (Demo.net_at 600),
      (mkResponse 200 (Some "text/html; charset=utf-8") Demo.body_upper_rss).
    split; [reflexivity|]. split; [constructor|].
    split; reflexivity. }
  apply H' in A. vm_compute in A. discriminate A.
Qed.

(** C6, amended: the loop over the candidates returns [c] exactly when [c]
    is the first candidate (each probed in turn, in the order of the list)
    whose request did not raise and whose answer has status 200 and either
    a Content-Type that contains [xml] or a body that contains [<rss] or
    [<feed] as written, in lower case.  The candidates are the six fixed
    paths appended to the URL without its trailing slashes, and discovery
    returns what the loop returns when no [<link>] element gave a feed. *)
Theorem C6_first_accepted_candidate (E : Env) (u : string)
  (st : netstate E) :
  Spec.probing_accepts Spec.accepts_exact (feed_candidates u) st
  /\ feed_candidates u
     = map (fun p => (PyStr.rstrip "/" u ++ p)%string)
         ["/feed"; "/rss"; "/rss.xml"; "/news/rss"; "/news/feed";
          "/aktuelles/feed"]
  /\ (forall (st0 : netstate E) (r : response),
        http_get u st0 = (Ok r, st) ->
        Forall (fun l => PyStr.truthy_opt (lt_href l) = false)
          (filter Spec.declares_feed (soup_link_tags E (text r))) ->
        discover_rss_from_url u st0 = probe_candidates (feed_candidates u) st).
Proof.
  split; [apply probing_accepts_exact|]. split; [reflexivity|].
  intros st0 r H F. now apply discover_without_href with (r := r).
Qed.

(** C6, amended, at [xml.example]: [/feed] answers 404, [/rss] answers 200
    with an XML content type and is returned. *)
Lemma C6_first_accepted_candidate_witness :
  let u := "https://xml.example" in
  let rq p := mkRequest (u ++ p)%string (ua_headers USER_AGENT) (Some 6) in
  let st' := mkNet (E := Demo.env) 600 [rq "/feed"; rq "/rss"] in
  probe_candidates (feed_candidates u) (Demo.net_at 600)
  = (Ok (Some "https://xml.example/rss"), st')
  /\ Spec.first_accepted Spec.accepts_exact (feed_candidates u)
       (Demo.net_at 600) "https://xml.example/rss" st'.
Proof.
  intros u rq st'.
  assert (H : probe_candidates (feed_candidates u) (Demo.net_at 600)
              = (Ok (Some "https://xml.example/rss"), st')) by reflexivity.
  split; [exact H|].
  exact (proj1 (proj1 (C6_first_accepted_candidate u (Demo.net_at 600))
                  "https://xml.example/rss" st') H).
Defined.

(* ===================================================================== *)
(** * The heuristic scraper *)
(* ===================================================================== *)

Section Scraper.

Variable E : Env.




(** The items built from the links: one per link, in order, no request. *)
Lemma items_of_links_spec (page : string) (ls : list (string * string))
  (st : netstate E) :
  exists items st',
    items_of_links page ls st = (Ok items, st')
    /\ map link items = map fst ls
    /\ map title items = map snd ls
    /\ sent st' = sent st.
Proof.
  revert st. induction ls as [|[l t] rest IH]; intros st; simpl.
  - exists [], st. auto.
  - unfold bind at 1, now. destruct (utcnow E (world st)) as [d w].
    destruct (IH (mkNet w (sent st))) as (items & st' & H & L & T & S).
    unfold bind, ret. rewrite H. eexists _, st'.
    split; [reflexivity|]. simpl. rewrite L, T. auto.
Qed.

(** A failure of the request for the page is caught: no items. *)
Lemma scrape_fetch_failed (page : string) (st st1 : netstate E) (e : exn) :
  http_get page st = (Raise e, st1) ->
  scrape_for_articles page st = (Ok [], st1).
Proof.
  intros H. unfold scrape_for_articles, bind, attempt. now rewrite H.
Qed.

(** A link that cannot be resolved makes the scraper raise. *)
Lemma scrape_raises (page : string) (st st1 : netstate E) (r : response)
  (e : exn) :
  http_get page st = (Ok r, st1) ->
  scrape_candidates E page (soup_anchors E (text r)) = Raise e ->
  scrape_for_articles page st = (Raise e, st1).
Proof.
  intros H C. unfold scrape_for_articles, bind at 1, attempt. rewrite H.
  unfold bind, of_result. now rewrite C.
Qed.


End Scraper.




(* ===================================================================== *)
(** * Where the program departs from its specification *)
(* ===================================================================== *)

Section Departures.

Variable E : Env.

(** The sort ends the run with [TypeError] as soon as the dates of the
    collected items parse to both kinds of datetime; the store keeps the
    links recorded during the collection. *)
Lemma aggregate_mixed (clubs : list club) (st st1 : aggstate E)
  (all_items : list item) (d : list (datetime * item)) (ns : netstate E) :
  collect clubs st = (Ok all_items, st1) ->
  keyed all_items (fst st1) = (Ok d, ns) ->
  Spec.mixed (Spec.keys d) = true ->
  aggregate clubs st = (Raise TypeError, (ns, snd st1)).
Proof.
  intros C K Mx. unfold aggregate, bind at 1. rewrite C.
  unfold sort_by_date, bind at 1, lift. rewrite K.
  unfold bind, of_result. now rewrite (sort_desc_mixed _ Mx).
Qed.

(** An [href] that [urljoin] refuses makes discovery raise: the call is
    outside the [try]. *)
Lemma discover_urljoin_raises (u : string) (st st1 : netstate E)
  (r : response) (href : string) (e : exn) :
  http_get u st = (Ok r, st1) ->
  first_href (filter feed_link (soup_link_tags E (text r))) = Some href ->
  urljoin E u href = Raise e ->
  discover_rss_from_url u st = (Raise e, st1).
Proof.
  intros H F J. rewrite (discover_fetched _ _ H), F. now rewrite J.
Qed.

(** An exception out of one source ends the loop over the sources. *)
Lemma collect_raises (c : club) (rest : list club) (st st1 : aggstate E)
  (e : exn) :
  process_club c st = (Raise e, st1) ->
  collect (c :: rest) st = (Raise e, st1).
Proof. intros H. simpl. unfold bind. now rewrite H. Qed.

Lemma item_of_entry_spec (e : entry) (st : netstate E) :
  exists o st', item_of_entry e st = (Ok o, st') /\ sent st' = sent st.
Proof.
  unfold item_of_entry.
  destruct (negb (PyStr.truthy_opt (PyStr.or_else (e_link e) (e_id e)))).
  - now exists None, st.
  - assert (N : exists t st1, (t <- @now E ;; ret (format_datetime E t)) st
                              = (Ok t, st1) /\ sent st1 = sent st).
    { unfold bind, now, ret. destruct (utcnow E (world st)).
      eexists _, _. split; reflexivity. }
    unfold bind at 1.
    destruct (e_published_parsed e).
    + eexists _, st. split; reflexivity.
    + destruct (PyStr.or_else (e_published e) (e_updated e)) as [p|].
      * destruct (PyStr.truthy p).
        -- eexists _, st. split; reflexivity.
        -- destruct N as (t & st1 & -> & S). eexists _, st1.
           split; [reflexivity | exact S].
      * destruct N as (t & st1 & -> & S). eexists _, st1.
        split; [reflexivity | exact S].
Qed.

Lemma items_of_entries_spec (es : list entry) (st : netstate E) :
  exists items st', items_of_entries es st = (Ok items, st')
                    /\ sent st' = sent st.
Proof.
  revert st. induction es as [|e rest IH]; intros st; simpl.
  - now exists [], st.
  - unfold bind at 1.
    destruct (item_of_entry_spec e st) as (o & st1 & -> & S1).
    destruct (IH st1) as (items & st2 & H & S2).
    unfold bind, ret. rewrite H. eexists _, st2.
    split; [reflexivity | congruence].
Qed.

(** Reading a feed never raises, and sends one request: the one feedparser
    makes, with feedparser's user agent and no timeout. *)
Lemma fetch_feed_items_spec (rss_url : string) (st : netstate E) :
  exists items st',
    fetch_feed_items rss_url st = (Ok items, st')
    /\ sent st'
       = sent st
         ++ [mkRequest rss_url (ua_headers (feedparser_agent E)) None].
Proof.
  unfold fetch_feed_items, bind, attempt, feedparser_parse.
  destruct (feed_entries E rss_url (world st)) as [[entries|e] w].
  - destruct (items_of_entries_spec (firstn MAX_ITEMS_PER_SOURCE entries)
                (mkNet w (sent st ++ [mkRequest rss_url
                   (ua_headers (feedparser_agent E)) None])))
      as (items & st' & -> & S).
    now exists items, st'.
  - eexists [], _. split; reflexivity.
Qed.

End Departures.

(* ===================================================================== *)
(** * What a run sends, and when it raises *)
(* ===================================================================== *)

Section Combinators.

Context {S : Type} (log : S -> list request) (P : request -> Prop).

Lemma sends_ret (A : Type) (a : A) : Spec.sends log P (ret a).
Proof. intros st. exists []. simpl. now rewrite app_nil_r. Qed.

Lemma sends_raise (A : Type) (e : exn) : Spec.sends log P (@raise S A e).
Proof. intros st. exists []. simpl. now rewrite app_nil_r. Qed.

Lemma sends_of_result (A : Type) (r : result A) :
  Spec.sends log P (@of_result S A r).
Proof. intros st. exists []. simpl. now rewrite app_nil_r. Qed.

Lemma sends_bind (A B : Type) (m : M S A) (f : A -> M S B) :
  Spec.sends log P m -> (forall a, Spec.sends log P (f a)) ->
  Spec.sends log P (bind m f).
Proof.
  intros Hm Hf st. unfold bind. destruct (Hm st) as (n1 & L1 & F1).
  destruct (m st) as [[a|e] st1]; simpl in *.
  - destruct (Hf a st1) as (n2 & L2 & F2). exists (n1 ++ n2).
    rewrite L2, L1, app_assoc. split; [reflexivity|].
    apply Forall_app. now split.
  - now exists n1.
Qed.

Lemma sends_attempt (A : Type) (m : M S A) :
  Spec.sends log P m -> Spec.sends log P (attempt m).
Proof.
  intros Hm st. unfold attempt. destruct (Hm st) as (n1 & L1 & F1).
  destruct (m st) as [r st1]. now exists n1.
Qed.

Lemma sends_try_except (A : Type) (m : M S A) (h : exn -> M S A) :
  Spec.sends log P m -> (forall e, Spec.sends log P (h e)) ->
  Spec.sends log P (try_except m h).
Proof.
  intros Hm Hh st. unfold try_except. destruct (Hm st) as (n1 & L1 & F1).
  destruct (m st) as [[a|e] st1]; simpl in *.
  - now exists n1.
  - destruct (Hh e st1) as (n2 & L2 & F2). exists (n1 ++ n2).
    rewrite L2, L1, app_assoc. split; [reflexivity|].
    apply Forall_app. now split.
Qed.

Lemma nr_ret (A : Type) (a : A) : Spec.never_raises (@ret S A a).
Proof. intros st. now exists a. Qed.



(** A [try] whose handler never raises never raises. *)
Lemma nr_try_except (A : Type) (m : M S A) (h : exn -> M S A) :
  (forall e, Spec.never_raises (h e)) -> Spec.never_raises (try_except m h).
Proof.
  intros Hh st. unfold try_except. destruct (m st) as [[a|e] st1].
  - now exists a.
  - apply Hh.
Qed.


End Combinators.

Lemma sends_weaken (S A : Type) (log : S -> list request)
  (P Q : request -> Prop) (m : M S A) :
  (forall rq, P rq -> Q rq) -> Spec.sends log P m -> Spec.sends log Q m.
Proof.
  intros PQ Hm st. destruct (Hm st) as (new & L & F). exists new.
  split; [exact L|]. eapply Forall_impl; [exact PQ | exact F].
Qed.

(** One step through the structure of a computation. *)
Ltac sends_step :=
  cbv beta;
  match goal with
  | |- Spec.sends _ _ (ret _) => apply sends_ret
  | |- Spec.sends _ _ (raise _) => apply sends_raise
  | |- Spec.sends _ _ (of_result _) => apply sends_of_result
  | |- Spec.sends _ _ (bind _ _) => apply sends_bind; [|intros ?]
  | |- Spec.sends _ _ (attempt _) => apply sends_attempt
  | |- Spec.sends _ _ (try_except _ _) => apply sends_try_except; [|intros ?]
  | |- Spec.sends _ _ (if ?b then _ else _) => destruct b
  | |- Spec.sends _ _ (match ?x with _ => _ end) => destruct x
  end.


Section Traces.

Variable E : Env.

Let own : request -> Prop := Spec.carries_agent.
Let any : request -> Prop :=
  fun rq => Spec.carries_agent rq \/ Spec.feedparser_request E rq.

Lemma sends_perform (P : request -> Prop) (rq : request) :
  P rq -> Spec.sends (@sent E) P (perform rq).
Proof.
  intros H st. unfold perform. destruct (send E rq (world st)) as [r w].
  exists [rq]. split; [reflexivity | now constructor].
Qed.

Lemma sends_now (P : request -> Prop) : Spec.sends (@sent E) P (@now E).
Proof.
  intros st. unfold now. destruct (utcnow E (world st)) as [t w].
  exists []. simpl. now rewrite app_nil_r.
Qed.

Lemma nr_now : Spec.never_raises (@now E).
Proof.
  intros st. unfold now. destruct (utcnow E (world st)) as [t w].
  now exists t.
Qed.

Lemma sends_requests_get (u : string) (timeout : Z) :
  Spec.sends (@sent E) own (requests_get u (ua_headers USER_AGENT) timeout).
Proof. apply sends_perform. reflexivity. Qed.

Lemma sends_http_get (u : string) : Spec.sends (@sent E) own (http_get u).
Proof.
  unfold http_get, raise_for_status.
  repeat first [apply sends_requests_get | sends_step].
Qed.

Lemma sends_probe_candidates (cs : list string) :
  Spec.sends (@sent E) own (probe_candidates cs).
Proof.
  induction cs as [|c rest IH]; simpl;
    repeat first [apply sends_requests_get | exact IH | sends_step].
Qed.

Lemma sends_discover (u : string) :
  Spec.sends (@sent E) own (discover_rss_from_url u).
Proof.
  unfold discover_rss_from_url.
  repeat first [apply sends_http_get | apply sends_probe_candidates
               | sends_step].
Qed.

Lemma sends_feedparser_parse (u : string) :
  Spec.sends (@sent E) (Spec.feedparser_request E) (feedparser_parse u).
Proof.
  intros st. unfold feedparser_parse.
  destruct (feed_entries E u (world st)) as [r w].
  eexists [_]. split; [reflexivity|]. constructor; [|constructor].
  split; reflexivity.
Qed.

Lemma sends_items_of_entries (P : request -> Prop) (es : list entry) :
  Spec.sends (@sent E) P (items_of_entries es).
Proof.
  induction es as [|e rest IH]; simpl; [apply sends_ret|].
  apply sends_bind; [|intros o; apply sends_bind;
                       [exact IH | intros; apply sends_ret]].
  unfold item_of_entry.
  repeat first [apply sends_now | sends_step].
Qed.

Lemma sends_fetch_feed_items (u : string) :
  Spec.sends (@sent E) (Spec.feedparser_request E) (fetch_feed_items u).
Proof.
  unfold fetch_feed_items.
  repeat first [apply sends_feedparser_parse | apply sends_items_of_entries
               | sends_step].
Qed.

Lemma sends_items_of_links (P : request -> Prop) (page : string)
  (ls : list (string * string)) :
  Spec.sends (@sent E) P (items_of_links page ls).
Proof.
  induction ls as [|[l t] rest IH]; simpl;
    repeat first [apply sends_now | exact IH | sends_step].
Qed.

Lemma sends_scrape (page : string) :
  Spec.sends (@sent E) own (scrape_for_articles page).
Proof.
  unfold scrape_for_articles.
  repeat first [apply sends_http_get | apply sends_items_of_links
               | sends_step].
Qed.

Lemma sends_guess_loop (u : string) (gps : list string) :
  Spec.sends (@sent E) own (guess_loop u gps).
Proof.
  induction gps as [|gp rest IH]; simpl; [apply sends_scrape|].
  repeat first [apply sends_requests_get | apply sends_scrape | exact IH
               | sends_step].
Qed.

(** The requests for one source: all carry [USER_AGENT], except the one
    feedparser makes for a discovered feed. *)
Lemma sends_source_items_of (c : club) :
  Spec.sends (@sent E) any (source_items_of c).
Proof.
  unfold source_items_of.
  repeat first
    [ apply (sends_weaken (P := own)); [intros rq H; left; exact H|];
      first [apply sends_discover | apply sends_guess_loop]
    | apply (sends_weaken (P := Spec.feedparser_request E));
      [intros rq H; right; exact H|]; apply sends_fetch_feed_items
    | sends_step ].
Qed.

Lemma sends_lift (A : Type) (P : request -> Prop) (m : IO E A) :
  Spec.sends (@sent E) P m -> Spec.sends (@Spec.run_log E) P (lift m).
Proof.
  intros Hm st. unfold lift, Spec.run_log.
  destruct (Hm (fst st)) as (new & L & F).
  destruct (m (fst st)) as [r ns]. now exists new.
Qed.

Lemma sends_dedup (P : request -> Prop) (items : list item) :
  Spec.sends (@Spec.run_log E) P (dedup items).
Proof.
  intros st. exists [].
  destruct (dedup_spec items st) as (kept & st' & -> & T & _).
  unfold Spec.run_log. simpl. rewrite T, app_nil_r. now split.
Qed.

Lemma sends_keyed (P : request -> Prop) (items : list item) :
  Spec.sends (@sent E) P (keyed items).
Proof.
  intros st. exists [].
  destruct (keyed_spec items st) as (d & st' & -> & _ & T).
  simpl. rewrite T, app_nil_r. now split.
Qed.

Lemma sends_collect (clubs : list club) :
  Spec.sends (@Spec.run_log E) any (collect clubs).
Proof.
  induction clubs as [|c rest IH]; simpl; [apply sends_ret|].
  unfold process_club.
  repeat first [apply sends_lift, sends_source_items_of | apply sends_dedup
               | exact IH | sends_step].
Qed.

(** Every request of a run carries [USER_AGENT] or is a request feedparser
    makes with its own agent. *)
Lemma sends_aggregate (clubs : list club) :
  Spec.sends (@Spec.run_log E) any (aggregate clubs).
Proof.
  unfold aggregate, sort_by_date.
  repeat first [apply sends_collect | apply sends_lift, sends_keyed
               | sends_step].
Qed.

(** ** Exceptions *)

(** From here on [urljoin] is taken to resolve every reference. *)
Hypothesis urljoin_total :
  forall base href, exists j, urljoin E base href = Ok j.












End Traces.

(** C2, at a failing input: the feed of the TV has an Atom entry dated
    [2026-11-03T11:20:00Z] and an entry dated [gestern].  Both are collected
    and recorded as seen; the first date parses to an aware datetime, the
    second falls back to the clock, which is naive; the sort raises
    [TypeError] and the run returns no output. *)
Theorem C2_sort_raises_on_mixed_dates :
  let r := aggregate [Demo.club_tv] Demo.start1 in
  (exists st1,
     collect [Demo.club_tv] Demo.start1
     = (Ok [mkItem "TV: Heimspiel" "https://tv.example/a/heimspiel"
              "Quelle: TV. " "2026-11-03T11:20:00Z";
            mkItem "TV: Ehrung" "https://tv.example/a/ehrung"
              "Quelle: TV. " "gestern"], st1)
     /\ fst (parse_date "2026-11-03T11:20:00Z" (fst st1)) = Ok (Aware 1200)
     /\ fst (parse_date "gestern" (fst st1)) = Ok (Naive 602))
  /\ dt_lt (Aware 1200) (Naive 602) = Raise TypeError
  /\ fst r = Raise TypeError
  /\ map SeenStore.guid (snd (snd r))
     = ["https://tv.example/a/heimspiel"; "https://tv.example/a/ehrung"].
Proof.
  split; [eexists; split; [vm_compute; reflexivity | split; reflexivity]|].
  split; [reflexivity|]. split; reflexivity.
Qed.

(** C4, at failing inputs.  The page of [badhref.example] announces its
    feed with [href='http://[']: resolving it raises [ValueError] outside
    every [try], so discovery raises, the run ends with that exception and
    the next source is never contacted.  The page of [badanchor.example]
    has no feed and links to [http://[::1]: the scraper, called for the
    given URL after the guessed pages, raises in the same way. *)
Theorem C4_url_error_escapes :
  let rq u := mkRequest u (ua_headers USER_AGENT) (Some REQUEST_TIMEOUT) in
  let r := aggregate [Demo.club_bad; Demo.club_fc] Demo.start1 in
  let r' := aggregate [Demo.club_badanchor; Demo.club_fc] Demo.start1 in
  Demo.urljoin "https://badhref.example" "http://[" = Raise ValueError
  /\ discover_rss_from_url "https://badhref.example" (Demo.net_at 600)
     = (Raise ValueError,
        mkNet (E := Demo.env) 600 [rq "https://badhref.example"])
  /\ fst r = Raise ValueError
  /\ sent (fst (snd r)) = [rq "https://badhref.example"]
  /\ Demo.urljoin "https://badanchor.example" "http://[::1"
     = Raise ValueError
  /\ scrape_for_articles "https://badanchor.example" (Demo.net_at 600)
     = (Raise ValueError,
        mkNet (E := Demo.env) 600 [rq "https://badanchor.example"])
  /\ fst r' = Raise ValueError
  /\ Forall (fun q => String.prefix "https://badanchor.example" (rq_url q)
                      = true) (sent (fst (snd r'))).
Proof.
  split; [reflexivity|]. split; [reflexivity|]. split; [reflexivity|].
  split; [reflexivity|]. split; [reflexivity|]. split; [reflexivity|].
  split; [reflexivity|]. vm_compute. repeat constructor.
Qed.

(** C9, at a failing input: for a source whose feed is discovered, the run
    sends two requests; the one for the page carries [USER_AGENT], the one
    for the feed is made by feedparser and carries feedparser's agent. *)
Theorem C9_feed_request_has_other_agent :
  let r := aggregate [Demo.club_fc] Demo.start1 in
  map (fun rq => (rq_url rq, user_agent rq)) (sent (fst (snd r)))
  = [("https://fc.example", Some USER_AGENT);
     ("https://fc.example/feed.xml",
      Some "feedparser/6.0.11 +https://github.com/kurtmckee/feedparser/")]
  /\ Exists (fun rq => user_agent rq <> Some USER_AGENT) (sent (fst (snd r))).
Proof.
  split; [reflexivity|].
  apply Exists_cons_tl, Exists_cons_hd. discriminate.
Qed.

(* ===================================================================== *)
(** * Further properties of the store and of a run *)
(* ===================================================================== *)

Section StoreOfARun.

Variable E : Env.

Lemma store_step_refl (db : SeenStore.table) : Props.store_step db db.
Proof. split; [exists []; now rewrite app_nil_r | auto]. Qed.

Lemma store_step_trans (a b c : SeenStore.table) :
  Props.store_step a b -> Props.store_step b c -> Props.store_step a c.
Proof.
  intros [[r1 ->] U1] [[r2 ->] U2]. split; [|auto].
  exists (r1 ++ r2). now rewrite app_assoc.
Qed.

Lemma ev_ret (A : Type) (a : A) : Props.evolves (E := E) (ret a).
Proof. intros st. apply store_step_refl. Qed.

Lemma ev_of_result (A : Type) (r : result A) :
  Props.evolves (E := E) (of_result r).
Proof. intros st. apply store_step_refl. Qed.

Lemma ev_bind (A B : Type) (m : Agg E A) (f : A -> Agg E B) :
  Props.evolves m -> (forall a, Props.evolves (f a)) ->
  Props.evolves (bind m f).
Proof.
  intros Hm Hf st. unfold bind. specialize (Hm st).
  destruct (m st) as [[a|e] st1]; simpl in *; [|exact Hm].
  eapply store_step_trans; [exact Hm | apply Hf].
Qed.

Lemma ev_lift (A : Type) (m : IO E A) : Props.evolves (lift m).
Proof.
  intros st. unfold lift. destruct (m (fst st)) as [r ns]. simpl.
  apply store_step_refl.
Qed.

Lemma ev_is_seen (g : string) : Props.evolves (@is_seen E g).
Proof. intros st. apply store_step_refl. Qed.

Lemma ev_mark_seen (g : string) : Props.evolves (@mark_seen E g).
Proof.
  intros st. unfold mark_seen.
  destruct (utcnow E (world (fst st))) as [t w].
  destruct (SeenStore.mark_seen (snd st) g t) as [r db] eqn:Hm. simpl.
  split; [|intros U; exact (mark_seen_unique _ _ U Hm)].
  destruct (SeenStore.is_seen (snd st) g) eqn:S.
  - rewrite insert_known in Hm by assumption. injection Hm as _ <-.
    exists []. now rewrite app_nil_r.
  - rewrite insert_fresh in Hm by assumption. injection Hm as _ <-.
    now eexists.
Qed.

Lemma ev_dedup (items : list item) : Props.evolves (@dedup E items).
Proof.
  induction items as [|it rest IH]; simpl; [apply ev_ret|].
  apply ev_bind; [apply ev_is_seen|]. intros [|]; [exact IH|].
  apply ev_bind; [apply ev_mark_seen|]. intros _.
  apply ev_bind; [exact IH | intros; apply ev_ret].
Qed.

Lemma ev_collect (clubs : list club) : Props.evolves (@collect E clubs).
Proof.
  induction clubs as [|c rest IH]; simpl; [apply ev_ret|].
  apply ev_bind; [|intros; apply ev_bind; [exact IH | intros; apply ev_ret]].
  unfold process_club.
  apply ev_bind; [apply ev_lift|]. intros src.
  apply ev_bind; [apply ev_of_result | intros; apply ev_dedup].
Qed.

Lemma ev_aggregate (clubs : list club) : Props.evolves (@aggregate E clubs).
Proof.
  unfold aggregate. apply ev_bind; [apply ev_collect|]. intros all_items.
  unfold sort_by_date. apply ev_bind; [apply ev_lift|]. intros d.
  apply ev_bind; [apply ev_of_result | intros; apply ev_ret].
Qed.

(** The rows the loop appends are the links it keeps, in order. *)
Lemma dedup_rows (items : list item) (st : aggstate E) :
  exists kept st' rows,
    dedup items st = (Ok kept, st')
    /\ snd st' = snd st ++ rows
    /\ map SeenStore.guid rows = map link kept.
Proof.
  revert st. induction items as [|it rest IH]; intros st.
  - exists [], st, []. simpl. now rewrite app_nil_r.
  - destruct (SeenStore.is_seen (snd st) (link it)) eqn:S.
    + rewrite dedup_seen by assumption. apply IH.
    + destruct (dedup_unseen it rest st S) as (st1 & Hm & _ & ->).
      assert (R1 : exists row, snd st1 = snd st ++ [row]
                               /\ SeenStore.guid row = link it).
      { unfold mark_seen in Hm.
        destruct (utcnow E (world (fst st))) as [t w].
        rewrite insert_fresh in Hm by assumption.
        injection Hm as <-. eexists. split; reflexivity. }
      destruct R1 as (row & R1 & G).
      destruct (IH st1) as (kept & st' & rows & -> & R & L).
      exists (it :: kept), st', (row :: rows). simpl.
      split; [reflexivity|]. split.
      * rewrite R, R1, <- app_assoc. reflexivity.
      * now rewrite G, L.
Qed.

Lemma collect_rows (clubs : list club) (st st' : aggstate E)
  (items : list item) :
  collect clubs st = (Ok items, st') ->
  exists rows,
    snd st' = snd st ++ rows
    /\ map SeenStore.guid rows = map link items.
Proof.
  revert st items. induction clubs as [|c rest IH]; intros st items; simpl.
  - intros [= <- <-]. exists []. now rewrite app_nil_r.
  - unfold bind at 1.
    destruct (process_club c st) as [[k1|e] st1] eqn:P; [|discriminate].
    unfold bind, ret.
    destruct (collect rest st1) as [[k2|e] st2] eqn:C; [|discriminate].
    intros [= <- <-].
    destruct (IH _ _ C) as (rows2 & R2 & L2).
    revert P. unfold process_club, bind, of_result.
    destruct (lift (source_items_of c) st) as [[src|e] st0] eqn:L;
      [|discriminate].
    apply lift_store in L.
    destruct (attribute_all (name c) src) as [attributed|e]; [|discriminate].
    destruct (dedup_rows attributed st0) as (k & st1' & rows1 & -> & R1 & L1).
    intros [= <- <-].
    exists (rows1 ++ rows2). rewrite R2, R1, L, <- app_assoc.
    split; [reflexivity|]. now rewrite !map_app, L1, L2.
Qed.

(** A source without a usable URL is passed over: nothing is requested,
    kept or recorded. *)
Lemma process_club_without_url (c : club) (st : aggstate E) :
  Props.has_url c = false -> process_club c st = (Ok [], st).
Proof.
  unfold Props.has_url, process_club, source_items_of, PyStr.truthy_opt.
  intros H. destruct st as [ns db].
  destruct (url c) as [u|]; [rewrite H|]; reflexivity.
Qed.

Lemma collect_filter (clubs : list club) (st : aggstate E) :
  collect clubs st = collect (filter Props.has_url clubs) st.
Proof.
  revert st. induction clubs as [|c rest IH]; intros st; [reflexivity|].
  cbn [filter]. destruct (Props.has_url c) eqn:H.
  - cbn [collect]. unfold bind at 1 3.
    destruct (process_club c st) as [[k|e] st1]; [|reflexivity].
    unfold bind. now rewrite IH.
  - cbn [collect]. unfold bind at 1.
    rewrite (process_club_without_url _ _ H). unfold bind, ret.
    rewrite <- IH. now destruct (collect rest st) as [[k|e] st1].
Qed.

End StoreOfARun.

(** X1: whatever a run does and however it ends, the table of the seen
    store afterwards is the table before with rows appended (no row is
    changed or removed, so every first_seen stays), and it still has no two
    rows with one guid. *)
Theorem X1_store_append_only (E : Env) (clubs : list club)
  (st : aggstate E) :
  SeenStore.unique_guids (snd st) ->
  (exists rows, snd (snd (aggregate clubs st)) = snd st ++ rows)
  /\ SeenStore.unique_guids (snd (snd (aggregate clubs st))).
Proof.
  intros U. destruct (ev_aggregate clubs st) as [G K]. split; [exact G|auto].
Qed.

(** X1 at the second example run, which starts with the five rows of the
    first and appends one. *)
Lemma X1_store_append_only_witness :
  SeenStore.unique_guids (snd Demo.start2)
  /\ (exists rows,
        snd (snd (aggregate Demo.clubs Demo.start2))
        = snd Demo.start2 ++ rows)
  /\ SeenStore.unique_guids (snd (snd (aggregate Demo.clubs Demo.start2)))
  /\ List.length (snd (snd (aggregate Demo.clubs Demo.start2))) = 6%nat.
Proof.
  assert (U : SeenStore.unique_guids (snd Demo.start2)).
  { unfold SeenStore.unique_guids. vm_compute.
    repeat constructor; simpl; intuition discriminate. }
  split; [exact U|].
  destruct (@X1_store_append_only Demo.env Demo.clubs Demo.start2 U)
    as [G K].
  split; [exact G|]. split; [exact K | reflexivity].
Defined.

(** X2: when a run returns, the rows it has appended to the store are
    exactly the links of the items it returns: as many rows as items, and
    the guids are the links up to order. *)
Theorem X2_rows_are_output_links (E : Env) (clubs : list club)
  (st st' : aggstate E) (out : list item) :
  aggregate clubs st = (Ok out, st') ->
  exists rows,
    snd st' = snd st ++ rows
    /\ Permutation (map SeenStore.guid rows) (map link out)
    /\ List.length rows = List.length out.
Proof.
  intros R. apply aggregate_perm in R as (all_items & st1 & C & D & P).
  apply collect_rows in C as (rows & Hr & L).
  exists rows. rewrite D. split; [exact Hr|].
  assert (Q : Permutation (map SeenStore.guid rows) (map link out)).
  { rewrite L. now apply Permutation_map. }
  split; [exact Q|].
  apply Permutation_length in Q. now rewrite !length_map in Q.
Qed.

(** X2 at the first example run: five items, five rows. *)
Lemma X2_rows_are_output_links_witness :
  aggregate Demo.clubs Demo.start1 = (Ok Demo.out1, snd Demo.run1)
  /\ exists rows,
       snd (snd Demo.run1) = snd Demo.start1 ++ rows
       /\ Permutation (map SeenStore.guid rows) (map link Demo.out1)
       /\ List.length rows = 5%nat.
Proof.
  assert (R1 : aggregate Demo.clubs Demo.start1
               = (Ok Demo.out1, snd Demo.run1)) by (vm_compute; reflexivity).
  split; [exact R1|].
  exact (@X2_rows_are_output_links Demo.env Demo.clubs _ _ _ R1).
Defined.

(** X3: sources without a URL (none, or an empty one) take no part in a
    run: leaving them out of the list changes neither the result, nor the
    requests sent, nor the store. *)
Theorem X3_sources_without_url_are_skipped (E : Env) (clubs : list club)
  (st : aggstate E) :
  aggregate clubs st = aggregate (filter Props.has_url clubs) st.
Proof.
  unfold aggregate, bind. now rewrite collect_filter.
Qed.

(** X4: a link collected by a run is never returned by a later run on the
    same store, also when the first run did not return: the items of a run
    that ends in the sort with an exception are lost. *)
Theorem X4_collected_links_never_return (E : Env) (clubs1 clubs2 : list club)
  (st1 st1' st2 st2' : aggstate E) (items out2 : list item) :
  collect clubs1 st1 = (Ok items, st1') ->
  snd st2 = snd st1' ->
  aggregate clubs2 st2 = (Ok out2, st2') ->
  forall it, In it items -> ~ In (link it) (map link out2).
Proof.
  intros C Hdb R it I J.
  apply collect_fresh in C as (_ & F1 & _).
  apply aggregate_fresh in R as (_ & F2 & _).
  apply in_map_iff in J as (it2 & e & J).
  destruct (F1 _ I) as [_ S1]. destruct (F2 _ J) as [S2 _].
  rewrite Hdb, e in S2. congruence.
Qed.

(** X4 at the TV: its first run collects two items and ends with
    [TypeError]; a run twenty minutes later returns nothing. *)
Lemma X4_collected_links_never_return_witness :
  collect [Demo.club_tv] Demo2.tv_start
  = (Ok Demo2.tv_items, snd Demo2.tv_collect)
  /\ fst (aggregate [Demo.club_tv] Demo2.tv_start) = Raise TypeError
  /\ snd Demo2.tv_again = snd (snd Demo2.tv_collect)
  /\ aggregate [Demo.club_tv] Demo2.tv_again = (Ok [], snd Demo2.tv_run2)
  /\ List.length Demo2.tv_items = 2%nat
  /\ forall it, In it Demo2.tv_items -> ~ In (link it) (map link []).
Proof.
  assert (C : collect [Demo.club_tv] Demo2.tv_start
              = (Ok Demo2.tv_items, snd Demo2.tv_collect))
    by (vm_compute; reflexivity).
  assert (R : aggregate [Demo.club_tv] Demo2.tv_again
              = (Ok [], snd Demo2.tv_run2)) by (vm_compute; reflexivity).
  split; [exact C|]. split; [reflexivity|]. split; [reflexivity|].
  split; [exact R|]. split; [reflexivity|].
  exact (@X4_collected_links_never_return Demo.env _ _ _ _ Demo2.tv_again
           _ _ _ C eq_refl R).
Defined.

(* ===================================================================== *)
(** * Further properties of discovery, reader and scraper *)
(* ===================================================================== *)

Section SourceOperations.

Variable E : Env.

Lemma http_get_failed (u : string) (st : netstate E)
  (out : result response) (w : World E) :
  send E (Props.get_request u) (world st) = (out, w) ->
  match out with
  | Raise _ => True
  | Ok r => 400 <= status_code r < 600
  end ->
  exists e, http_get u st
            = (Raise e, mkNet w (sent st ++ [Props.get_request u])).
Proof.
  intros H Hout. unfold http_get, bind, requests_get, perform.
  fold (Props.get_request u). rewrite H. destruct out as [r|e].
  - unfold raise_for_status.
    replace ((400 <=? status_code r) && (status_code r <? 600)) with true.
    + now exists HTTPError.
    + symmetry. apply andb_true_iff. split; [apply Z.leb_le | apply Z.ltb_lt];
        lia.
  - now exists e.
Qed.

Lemma probe_sent (c : string) (st st1 : netstate E) (r : result response) :
  Spec.probe c st = (r, st1) ->
  sent st1 = sent st ++ [Props.probe_request c].
Proof.
  unfold Spec.probe, requests_get, perform.
  destruct (send E _ (world st)) as [r0 w]. now intros [= _ <-].
Qed.

(** The loop over the candidates probes them in order and stops at the
    one it returns. *)
Lemma probe_trace (cs : list string) (st : netstate E) :
  exists k,
    (k <= List.length cs)%nat
    /\ sent (snd (probe_candidates cs st))
       = sent st ++ map Props.probe_request (firstn k cs)
    /\ ((fst (probe_candidates cs st) = Ok None /\ k = List.length cs)
        \/ (exists c, fst (probe_candidates cs st) = Ok (Some c)
                      /\ nth_error cs (k - 1) = Some c /\ (0 < k)%nat)).
Proof.
  revert st. induction cs as [|c rest IH]; intros st.
  - exists 0%nat. simpl. rewrite app_nil_r. auto.
  - destruct (Spec.probe c st) as [[rr|e] st1] eqn:P;
      pose proof (probe_sent _ _ P) as S1.
    + rewrite (probe_answer _ rest _ P).
      destruct (Spec.accepts_exact rr).
      * exists 1%nat. simpl. split; [lia|]. split; [exact S1|].
        right. exists c. auto.
      * destruct (IH st1) as (k & Hk & Hs & R). exists (S k). simpl.
        split; [lia|]. split.
        -- rewrite Hs, S1, <- app_assoc. reflexivity.
        -- destruct R as [[R ->]|(c' & R & N & K)]; [left; auto|].
           right. exists c'. split; [exact R|]. split; [|lia].
           destruct k as [|k']; [lia|]. simpl in *.
           now rewrite Nat.sub_0_r in N.
    + rewrite (probe_raise _ rest _ P).
      destruct (IH st1) as (k & Hk & Hs & R). exists (S k). simpl.
      split; [lia|]. split.
      * rewrite Hs, S1, <- app_assoc. reflexivity.
      * destruct R as [[R ->]|(c' & R & N & K)]; [left; auto|].
        right. exists c'. split; [exact R|]. split; [|lia].
        destruct k as [|k']; [lia|]. simpl in *.
        now rewrite Nat.sub_0_r in N.
Qed.







Lemma bind_raises (S A B : Type) (m : M S A) (f : A -> M S B) (st st' : S)
  (e : exn) :
  Spec.never_raises m -> bind m f st = (Raise e, st') ->
  exists a st1, f a st1 = (Raise e, st').
Proof.
  intros N. unfold bind. destruct (N st) as [a Ha].
  destruct (m st) as [r st1]. simpl in Ha. subst r. eauto.
Qed.

(** The loop over the guessed pages raises only what the scraper raises
    for the given URL itself. *)
Lemma guess_loop_raises (u : string) (gps : list string)
  (st st' : netstate E) (e : exn) :
  guess_loop u gps st = (Raise e, st') ->
  exists st0, scrape_for_articles u st0 = (Raise e, st').
Proof.
  revert st. induction gps as [|gp rest IH]; intros st; simpl.
  - intros H. now exists st.
  - intros H. apply bind_raises in H as (found & st1 & H).
    + destruct found as [items|]; [discriminate | now apply IH in H].
    + apply nr_try_except. intros x. apply nr_ret.
Qed.

End SourceOperations.

(** X5: when the request for a page raises or is answered with a status
    from 400 to 599, discovery returns no feed and the scraper returns no
    items; in both cases nothing is raised and that one request is the only
    one sent: discovery probes no candidate path for such a page. *)
Theorem X5_unfetchable_page (E : Env) (u : string) (st : netstate E)
  (out : result response) (w : World E) :
  send E (Props.get_request u) (world st) = (out, w) ->
  match out with
  | Raise _ => True
  | Ok r => 400 <= status_code r < 600
  end ->
  discover_rss_from_url u st
  = (Ok None, mkNet w (sent st ++ [Props.get_request u]))
  /\ scrape_for_articles u st
     = (Ok [], mkNet w (sent st ++ [Props.get_request u])).
Proof.
  intros H Hout. destruct (http_get_failed u st H Hout) as [e G]. split.
  - exact (discover_fetch_failed _ _ G).
  - exact (scrape_fetch_failed _ _ G).
Qed.

(** X5 at a page of the SV that answers 404. *)
Lemma X5_unfetchable_page_witness :
  let u := "https://sv.example/missing" in
  send Demo.env (Props.get_request u) 600 = (Demo.not_found, 600)
  /\ 400 <= 404 < 600
  /\ discover_rss_from_url u (Demo.net_at 600)
     = (Ok None, mkNet (E := Demo.env) 600 [Props.get_request u])
  /\ scrape_for_articles u (Demo.net_at 600)
     = (Ok [], mkNet (E := Demo.env) 600 [Props.get_request u]).
Proof.
  intros u.
  assert (H : send Demo.env (Props.get_request u) (world (Demo.net_at 600))
              = (Ok (mkResponse 404 (Some "text/html") "Not Found"), 600))
    by reflexivity.
  assert (B : 400 <= 404 < 600) by lia.
  split; [exact H|]. split; [exact B|].
  exact (@X5_unfetchable_page Demo.env u (Demo.net_at 600) _ _ H B).
Defined.

(** X6: discovery sends the request for the page and then probes
    candidates in their fixed order, at most the six of them and none
    after the one it returns; it probes all six before it returns no feed
    from the probing. *)
Theorem X6_discovery_requests (E : Env) (u : string) (st : netstate E) :
  exists k,
    (k <= 6)%nat
    /\ sent (snd (discover_rss_from_url u st))
       = sent st
         ++ Props.get_request u
            :: map Props.probe_request (firstn k (feed_candidates u))
    /\ (forall f, (0 < k)%nat ->
          fst (discover_rss_from_url u st) = Ok (Some f) ->
          nth_error (feed_candidates u) (k - 1) = Some f)
    /\ ((0 < k)%nat ->
        fst (discover_rss_from_url u st) = Ok None -> k = 6%nat).
Proof.
  destruct (http_get u st) as [[r|e] st1] eqn:H;
    pose proof (http_get_sent _ _ H) as S1;
    fold (Props.get_request u) in S1.
  - rewrite (discover_fetched _ _ H).
    destruct (first_href _) as [href|].
    + exists 0%nat. simpl. split; [lia|]. split; [exact S1|].
      split; intros; lia.
    + destruct (probe_trace (feed_candidates u) st1) as (k & Hk & Hs & R).
      exists k. split; [exact Hk|]. split.
      * rewrite Hs, S1, <- app_assoc. reflexivity.
      * destruct R as [[R ->]|(c & R & N & K)]; rewrite R; split.
        -- discriminate.
        -- reflexivity.
        -- intros f _ [= <-]. exact N.
        -- discriminate.
  - rewrite (discover_fetch_failed _ _ H). exists 0%nat. simpl.
    split; [lia|]. split; [exact S1|]. split; intros; lia.
Qed.




(** X9: scraping a guessed listing page is inside the [try] of the loop
    over the guessed paths: whatever is raised there is swallowed and the
    next path is tried.  When the loop raises, it is the scraper called for
    the given URL itself that raised. *)
Theorem X9_guessed_pages_never_raise (E : Env) (u : string)
  (gps : list string) (st st' : netstate E) (e : exn) :
  guess_loop u gps st = (Raise e, st') ->
  exists st0, scrape_for_articles u st0 = (Raise e, st').
Proof. apply guess_loop_raises. Qed.

(** X9 at [badanchor.example]: the five guessed pages answer 404, the
    scraper runs on the given URL and raises. *)
Lemma X9_guessed_pages_never_raise_witness :
  let u := "https://badanchor.example" in
  exists st',
    guess_loop u guess_paths (Demo.net_at 600) = (Raise ValueError, st')
    /\ List.length (sent st') = 6%nat
    /\ exists st0, scrape_for_articles u st0 = (Raise ValueError, st').
Proof.
  intros u. eexists.
  assert (H : guess_loop u guess_paths (Demo.net_at 600)
              = (Raise ValueError,
                 snd (guess_loop u guess_paths (Demo.net_at 600))))
    by (vm_compute; reflexivity).
  split; [exact H|]. split; [reflexivity|].
  exact (@X9_guessed_pages_never_raise Demo.env u guess_paths _ _ _ H).
Defined.

(* ===================================================================== *)
(** * Further properties of attribution, sorting and the requests *)
(* ===================================================================== *)

Lemma prefix_app (p s : string) : String.prefix p (p ++ s) = true.
Proof.
  induction p as [|a p IH]; [apply prefix_nil_l|].
  simpl. destruct (ascii_dec a a); [exact IH | congruence].
Qed.

Lemma string_app_assoc (a b c : string) :
  ((a ++ b) ++ c = a ++ (b ++ c))%string.
Proof. induction a as [|x a IH]; simpl; [reflexivity | now rewrite IH]. Qed.

Lemma attributed_title_idem (n t : string) :
  Spec.attributed_title n (Spec.attributed_title n t)
  = Spec.attributed_title n t.
Proof.
  unfold Spec.attributed_title at 2.
  destruct (PyStr.contains " - " t || PyStr.startswith t (n ++ ":")) eqn:C.
  - unfold Spec.attributed_title. now rewrite C.
  - unfold Spec.attributed_title.
    replace (PyStr.startswith (n ++ ": " ++ t) (n ++ ":")) with true.
    + now rewrite orb_true_r, C.
    + unfold PyStr.startswith.
      change (n ++ ": " ++ t)%string with (n ++ (":" ++ (" " ++ t)))%string.
      rewrite <- string_app_assoc. symmetry. apply prefix_app.
Qed.

(** X10: attributing an item to its source a second time leaves the title
    as the first attribution made it (the prefix is not doubled), while the
    description gets the prefix once more. *)
Theorem X10_attribution_twice (n : string) (it : item) :
  exists it' it'',
    attribute (Some n) it = Ok it'
    /\ attribute (Some n) it' = Ok it''
    /\ title it'' = title it'
    /\ description it''
       = ("Quelle: " ++ n ++ ". Quelle: " ++ n ++ ". " ++ description it)%string
    /\ link it'' = link it
    /\ pubDate it'' = pubDate it.
Proof.
  exists (Spec.attributed n it), (Spec.attributed n (Spec.attributed n it)).
  rewrite !attribute_spec. split; [reflexivity|]. split; [reflexivity|].
  split; [apply attributed_title_idem|]. split; [|split; reflexivity].
  reflexivity.
Qed.

Section StableSort.

Lemma same_key_not_lt (a b k : datetime) :
  Props.dt_eqb a k = true -> Props.dt_eqb b k = true ->
  dt_lt a b <> Ok true.
Proof.
  destruct a, b, k; simpl; try discriminate; intros Ha Hb [= H];
    apply Z.eqb_eq in Ha, Hb; apply Z.ltb_lt in H; lia.
Qed.

Lemma insert_desc_with_key (k : datetime) (x : datetime * item)
  (l r : list (datetime * item)) :
  insert_desc x l = Ok r ->
  Props.with_key k r = Props.with_key k (x :: l).
Proof.
  revert r. induction l as [|y l IH]; intros r; simpl.
  - now intros [= <-].
  - destruct (dt_lt (fst x) (fst y)) as [[|]|e] eqn:C; try discriminate.
    + destruct (insert_desc x l) as [r'|e]; [|discriminate].
      intros [= <-]. specialize (IH r' eq_refl).
      unfold Props.with_key in *. simpl in *. rewrite IH.
      destruct (Props.dt_eqb (fst x) k) eqn:Kx,
               (Props.dt_eqb (fst y) k) eqn:Ky; try reflexivity.
      exfalso. exact (same_key_not_lt _ _ _ Kx Ky C).
    + now intros [= <-].
Qed.

(** The sort keeps the elements of equal key in the order they had. *)
Lemma sort_desc_with_key (k : datetime) (l s : list (datetime * item)) :
  sort_desc l = Ok s -> Props.with_key k s = Props.with_key k l.
Proof.
  revert s. induction l as [|x l IH]; intros s; simpl.
  - now intros [= <-].
  - destruct (sort_desc l) as [s'|e]; [|discriminate].
    intros Ins. rewrite (insert_desc_with_key k _ _ Ins).
    unfold Props.with_key in *. simpl. now rewrite (IH s' eq_refl).
Qed.

End StableSort.

(** X11: when a run returns, its output is the list of collected items
    rearranged by the sort: no item is lost or added, the keys computed
    from the dates are non-increasing, and items whose keys are equal keep
    the order in which they were collected. *)
Theorem X11_output_is_stable_sort (E : Env) (clubs : list club)
  (st st' : aggstate E) (out : list item) :
  aggregate clubs st = (Ok out, st') ->
  exists all_items st1 d s,
    collect clubs st = (Ok all_items, st1)
    /\ keyed all_items (fst st1) = (Ok d, fst st')
    /\ map snd d = all_items
    /\ out = map snd s
    /\ Permutation d s
    /\ Spec.non_increasing (Spec.keys s)
    /\ forall k, Props.with_key k s = Props.with_key k d.
Proof.
  intros R. apply aggregate_inv in R
    as (all_items & st1 & d & s & C & K & _ & Hd & Sd & ->).
  exists all_items, st1, d, s.
  destruct (sort_desc_spec _ Sd) as [P N].
  split; [exact C|]. split; [exact K|]. split; [exact Hd|].
  split; [reflexivity|]. split; [exact P|]. split; [exact N|].
  intros k. now apply sort_desc_with_key.
Qed.

(** X11 at the first example run. *)
Lemma X11_output_is_stable_sort_witness :
  aggregate Demo.clubs Demo.start1 = (Ok Demo.out1, snd Demo.run1)
  /\ exists all_items st1 d s,
       collect Demo.clubs Demo.start1 = (Ok all_items, st1)
       /\ keyed all_items (fst st1) = (Ok d, fst (snd Demo.run1))
       /\ map snd d = all_items
       /\ Demo.out1 = map snd s
       /\ Permutation d s
       /\ Spec.non_increasing (Spec.keys s)
       /\ forall k, Props.with_key k s = Props.with_key k d.
Proof.
  assert (R1 : aggregate Demo.clubs Demo.start1
               = (Ok Demo.out1, snd Demo.run1)) by (vm_compute; reflexivity).
  split; [exact R1|].
  exact (@X11_output_is_stable_sort Demo.env Demo.clubs _ _ _ R1).
Defined.

Section RequestsOfARun.

Variable E : Env.

Lemma own_probe (u : string) :
  Spec.sends (@sent E) Props.own_request
    (requests_get u (ua_headers USER_AGENT) 6).
Proof. apply sends_perform. split; [reflexivity | left; reflexivity]. Qed.

Lemma own_http_get (u : string) :
  Spec.sends (@sent E) Props.own_request (http_get u).
Proof.
  unfold http_get, raise_for_status.
  apply sends_bind.
  - apply sends_perform. split; [reflexivity | right; reflexivity].
  - intros r. repeat sends_step.
Qed.

Lemma own_probe_candidates (cs : list string) :
  Spec.sends (@sent E) Props.own_request (probe_candidates cs).
Proof.
  induction cs as [|c rest IH]; simpl;
    repeat first [apply own_probe | exact IH | sends_step].
Qed.

Lemma own_discover (u : string) :
  Spec.sends (@sent E) Props.own_request (discover_rss_from_url u).
Proof.
  unfold discover_rss_from_url.
  repeat first [apply own_http_get | apply own_probe_candidates | sends_step].
Qed.

Lemma own_scrape (page : string) :
  Spec.sends (@sent E) Props.own_request (scrape_for_articles page).
Proof.
  unfold scrape_for_articles.
  repeat first [apply own_http_get | apply sends_items_of_links | sends_step].
Qed.

Lemma own_guess_loop (u : string) (gps : list string) :
  Spec.sends (@sent E) Props.own_request (guess_loop u gps).
Proof.
  induction gps as [|gp rest IH]; simpl; [apply own_scrape|].
  repeat first [apply own_probe | apply own_scrape | exact IH | sends_step].
Qed.

Lemma feed_fetch_request (u : string) :
  Spec.sends (@sent E) (Props.run_request E) (fetch_feed_items u).
Proof.
  intros st. destruct (fetch_feed_items_spec u st) as (items & st' & -> & S).
  exists [Props.feed_request E u]. split; [exact S|].
  constructor; [|constructor]. right. now exists u.
Qed.

Lemma run_source_items_of (c : club) :
  Spec.sends (@sent E) (Props.run_request E) (source_items_of c).
Proof.
  unfold source_items_of.
  repeat first
    [ apply (sends_weaken (P := Props.own_request));
      [intros rq H; left; exact H|];
      first [apply own_discover | apply own_guess_loop]
    | apply feed_fetch_request
    | sends_step ].
Qed.

Lemma run_collect (clubs : list club) :
  Spec.sends (@Spec.run_log E) (Props.run_request E) (collect clubs).
Proof.
  induction clubs as [|c rest IH]; simpl; [apply sends_ret|].
  unfold process_club.
  repeat first [apply sends_lift, run_source_items_of | apply sends_dedup
               | exact IH | sends_step].
Qed.

(** ** Counting the requests *)

Context {S : Type} (log : S -> list request).

Lemma sam_ret (A : Type) (n : nat) (a : A) :
  Props.sends_at_most log n (ret a).
Proof. intros st. exists []. simpl. rewrite app_nil_r. split; [auto|lia]. Qed.

Lemma sam_raise (A : Type) (n : nat) (e : exn) :
  Props.sends_at_most log n (@raise S A e).
Proof. intros st. exists []. simpl. rewrite app_nil_r. split; [auto|lia]. Qed.

Lemma sam_of_result (A : Type) (n : nat) (r : result A) :
  Props.sends_at_most log n (@of_result S A r).
Proof. intros st. exists []. simpl. rewrite app_nil_r. split; [auto|lia]. Qed.

Lemma sam_bind (A B : Type) (n1 n2 n : nat) (m : M S A) (f : A -> M S B) :
  (n1 + n2 <= n)%nat ->
  Props.sends_at_most log n1 m ->
  (forall a, Props.sends_at_most log n2 (f a)) ->
  Props.sends_at_most log n (bind m f).
Proof.
  intros Hn Hm Hf st. unfold bind. destruct (Hm st) as (w1 & L1 & F1).
  destruct (m st) as [[a|e] st1]; simpl in *.
  - destruct (Hf a st1) as (w2 & L2 & F2). exists (w1 ++ w2).
    rewrite L2, L1, app_assoc. split; [reflexivity|].
    rewrite length_app. lia.
  - exists w1. split; [exact L1 | lia].
Qed.

Lemma sam_attempt (A : Type) (n : nat) (m : M S A) :
  Props.sends_at_most log n m -> Props.sends_at_most log n (attempt m).
Proof.
  intros Hm st. unfold attempt. destruct (Hm st) as (w1 & L1 & F1).
  destruct (m st) as [r st1]. now exists w1.
Qed.

Lemma sam_try_except (A : Type) (n1 n2 n : nat) (m : M S A)
  (h : exn -> M S A) :
  (n1 + n2 <= n)%nat ->
  Props.sends_at_most log n1 m ->
  (forall e, Props.sends_at_most log n2 (h e)) ->
  Props.sends_at_most log n (try_except m h).
Proof.
  intros Hn Hm Hh st. unfold try_except. destruct (Hm st) as (w1 & L1 & F1).
  destruct (m st) as [[a|e] st1]; simpl in *.
  - exists w1. split; [exact L1 | lia].
  - destruct (Hh e st1) as (w2 & L2 & F2). exists (w1 ++ w2).
    rewrite L2, L1, app_assoc. split; [reflexivity|].
    rewrite length_app. lia.
Qed.

End RequestsOfARun.

Section RequestCount.

Variable E : Env.

Lemma sam_perform (n : nat) (rq : request) :
  (1 <= n)%nat -> Props.sends_at_most (@sent E) n (perform rq).
Proof.
  intros Hn st. unfold perform. destruct (send E rq (world st)) as [r w].
  exists [rq]. split; [reflexivity | simpl; lia].
Qed.

Lemma sam_silent (A : Type) (n : nat) (m : IO E A) :
  (forall st, sent (snd (m st)) = sent st) ->
  Props.sends_at_most (@sent E) n m.
Proof.
  intros H st. exists []. rewrite app_nil_r. split; [apply H | simpl; lia].
Qed.

Lemma sam_http_get (u : string) :
  Props.sends_at_most (@sent E) 1 (http_get u).
Proof.
  unfold http_get.
  apply (sam_bind (n1 := 1) (n2 := 0)); [lia | now apply sam_perform|].
  intros r. apply (sam_bind (n1 := 0) (n2 := 0)); [lia| |intros; apply sam_ret].
  unfold raise_for_status.
  destruct (_ && _); [apply sam_raise | apply sam_ret].
Qed.

Lemma sam_probe_candidates (cs : list string) :
  Props.sends_at_most (@sent E) (List.length cs) (probe_candidates cs).
Proof.
  induction cs as [|c rest IH]; simpl; [apply sam_ret|].
  apply (sam_bind (n1 := 1) (n2 := List.length rest)); [lia| |].
  - apply sam_attempt. now apply sam_perform.
  - intros [rr|e]; [|exact IH].
    destruct (looks_like_feed rr); [apply sam_ret | exact IH].
Qed.

Lemma sam_discover (u : string) :
  Props.sends_at_most (@sent E) 7 (discover_rss_from_url u).
Proof.
  unfold discover_rss_from_url.
  apply (sam_bind (n1 := 1) (n2 := 6)); [lia| |].
  - apply sam_attempt, sam_http_get.
  - intros [r|e]; [|apply sam_ret].
    destruct (first_href _).
    + apply (sam_bind (n1 := 0) (n2 := 0));
        [lia | apply sam_of_result | intros; apply sam_ret].
    + exact (sam_probe_candidates (feed_candidates u)).
Qed.

Lemma sam_fetch_feed_items (u : string) :
  Props.sends_at_most (@sent E) 1 (fetch_feed_items u).
Proof.
  intros st. destruct (fetch_feed_items_spec u st) as (items & st' & -> & S).
  eexists [_]. split; [exact S | simpl; lia].
Qed.

Lemma sam_scrape (page : string) :
  Props.sends_at_most (@sent E) 1 (scrape_for_articles page).
Proof.
  unfold scrape_for_articles.
  apply (sam_bind (n1 := 1) (n2 := 0)); [lia| |].
  - apply sam_attempt, sam_http_get.
  - intros [r|e]; [|apply sam_ret].
    apply (sam_bind (n1 := 0) (n2 := 0)); [lia | apply sam_of_result|].
    intros cs. apply sam_silent. intros st.
    destruct (items_of_links_spec page (unique_links cs [] []) st)
      as (items & st' & -> & _ & _ & S). exact S.
Qed.

Lemma sam_guess_loop (u : string) (gps : list string) :
  Props.sends_at_most (@sent E) (2 * List.length gps + 1) (guess_loop u gps).
Proof.
  induction gps as [|gp rest IH]; [exact (sam_scrape u)|].
  cbn [guess_loop List.length].
  apply (sam_bind (n1 := 2) (n2 := 2 * List.length rest + 1)); [lia| |].
  - apply (sam_try_except (n1 := 2) (n2 := 0));
      [lia | | intros; apply sam_ret].
    apply (sam_bind (n1 := 1) (n2 := 1)); [lia | now apply sam_perform|].
    intros r. destruct (_ && _); [|apply sam_ret].
    apply (sam_bind (n1 := 1) (n2 := 0));
      [lia | apply sam_scrape | intros; apply sam_ret].
  - intros [items|]; [apply sam_ret | exact IH].
Qed.

(** One source costs at most 18 requests: the page, six candidates, five
    guessed pages each followed by a scrape, and a last scrape. *)
Lemma sam_source_items_of (c : club) :
  Props.sends_at_most (@sent E) (if Props.has_url c then 18 else 0)
    (source_items_of c).
Proof.
  unfold source_items_of, Props.has_url, PyStr.truthy_opt.
  destruct (url c) as [u|]; [|apply sam_ret].
  destruct (PyStr.truthy u); [|apply sam_ret].
  apply (sam_bind (n1 := 7) (n2 := 11)); [lia | apply sam_discover|].
  assert (G : Props.sends_at_most (@sent E) 11 (guess_loop u guess_paths))
    by exact (sam_guess_loop u guess_paths).
  intros [f|]; [|exact G].
  destruct (PyStr.truthy f); [|exact G].
  intros st. destruct (sam_fetch_feed_items f st) as (w & L & F).
  exists w. split; [exact L | lia].
Qed.

Lemma sam_lift (A : Type) (n : nat) (m : IO E A) :
  Props.sends_at_most (@sent E) n m ->
  Props.sends_at_most (@Spec.run_log E) n (lift m).
Proof.
  intros Hm st. unfold lift, Spec.run_log.
  destruct (Hm (fst st)) as (w & L & F).
  destruct (m (fst st)) as [r ns]. now exists w.
Qed.

Lemma sam_collect (clubs : list club) :
  Props.sends_at_most (@Spec.run_log E)
    (18 * List.length (filter Props.has_url clubs)) (collect clubs).
Proof.
  induction clubs as [|c rest IH]; cbn [collect filter]; [apply sam_ret|].
  pose proof (sam_source_items_of c) as Hc.
  apply (sam_bind (n1 := if Props.has_url c then 18 else 0)
                  (n2 := 18 * List.length (filter Props.has_url rest))).
  - destruct (Props.has_url c); simpl; lia.
  - unfold process_club.
    apply (sam_bind (n1 := if Props.has_url c then 18 else 0) (n2 := 0));
      [lia | now apply sam_lift|].
    intros src.
    apply (sam_bind (n1 := 0) (n2 := 0)); [lia | apply sam_of_result|].
    intros attributed st. exists [].
    destruct (dedup_spec attributed st) as (kept & st' & -> & T & _).
    unfold Spec.run_log. simpl. rewrite T, app_nil_r. split; [auto | lia].
  - intros new_items.
    apply (sam_bind (n1 := 18 * List.length (filter Props.has_url rest))
                    (n2 := 0)); [lia | exact IH | intros; apply sam_ret].
Qed.

End RequestCount.

(** X12: every request of a run is a request of the program itself, with
    its user agent and a timeout of 6 or 12 seconds, or the request
    feedparser makes for a feed, with feedparser's user agent and without a
    timeout. *)
Theorem X12_requests_of_a_run (E : Env) (clubs : list club) :
  Spec.sends (@Spec.run_log E) (Props.run_request E) (aggregate clubs).
Proof.
  unfold aggregate, sort_by_date.
  repeat first [apply run_collect | apply sends_lift, sends_keyed
               | sends_step].
Qed.

(** X13: a run sends at most 18 requests for every source that has a URL,
    and none for the others. *)
Theorem X13_request_bound (E : Env) (clubs : list club) :
  Props.sends_at_most (@Spec.run_log E)
    (18 * List.length (filter Props.has_url clubs)) (aggregate clubs).
Proof.
  unfold aggregate.
  apply (sam_bind (n1 := 18 * List.length (filter Props.has_url clubs))
                  (n2 := 0)); [lia | apply sam_collect|].
  intros all_items. unfold sort_by_date.
  apply (sam_bind (n1 := 0) (n2 := 0)); [lia| |].
  - apply sam_lift, sam_silent. intros st.
    destruct (keyed_spec all_items st) as (d & st' & -> & _ & T). exact T.
  - intros d. apply (sam_bind (n1 := 0) (n2 := 0));
      [lia | apply sam_of_result | intros; apply sam_ret].
Qed.

(* ===================================================================== *)
(** * Further properties of source list, feed document and main *)
(* ===================================================================== *)

Lemma item_element_read (it : item) :
  Rss.item_of_element (Rss.item_element it) = Some it.
Proof.
  unfold Rss.item_element, Rss.leaf. simpl.
  rewrite String.eqb_refl. now destruct it.
Qed.

Lemma item_elements_read (items : list item) :
  Rss.items_of_elements (map Rss.item_element items) = Some items.
Proof.
  induction items as [|it rest IH]; [reflexivity|].
  cbn [map Rss.items_of_elements]. now rewrite item_element_read, IH.
Qed.

Lemma rss_tree_read (d : string) (items : list item) :
  Rss.items_of_tree (Rss.rss_tree d items) = Some items.
Proof.
  unfold Rss.rss_tree, Rss.items_of_tree. simpl. apply item_elements_read.
Qed.

(** X14: [build_rss] never raises and sends nothing; the document it
    serializes has, after the five elements of the channel head, one item
    element per item in the given order, whose title, link, description and
    pubDate are those of the item and whose guid is the link: the items can
    be read back from the tree, so different lists of items give different
    trees. *)
Theorem X14_feed_document (E : Env) (tostring : Rss.element -> string)
  (items : list item) (st : netstate E) :
  exists tree st',
    build_rss tostring items st = (Ok (tostring tree), st')
    /\ sent st' = sent st
    /\ Rss.items_of_tree tree = Some items
    /\ (forall d d' items',
          Rss.rss_tree d items = Rss.rss_tree d' items' -> items = items').
Proof.
  unfold build_rss, bind, now, ret.
  destruct (utcnow E (world st)) as [t w].
  eexists _, _. split; [reflexivity|]. split; [reflexivity|].
  split; [apply rss_tree_read|].
  intros d d' items' H.
  assert (R : Rss.items_of_tree (Rss.rss_tree d items)
              = Rss.items_of_tree (Rss.rss_tree d' items')) by now rewrite H.
  rewrite !rss_tree_read in R. now injection R.
Qed.

Section MainRun.

Variable E : Env.
Variable tostring : Rss.element -> string.




End MainRun.


Section Stripping.







Lemma path_rstrip_app (c : ascii) (s : string) :
  PyStr.rstrip c (s ++ String c "") = PyStr.rstrip c s.
Proof.
  induction s as [|a s IH]; simpl.
  - now rewrite Ascii.eqb_refl.
  - now rewrite IH.
Qed.

Lemma path_rstrip_idem (c : ascii) (s : string) :
  PyStr.rstrip c (PyStr.rstrip c s) = PyStr.rstrip c s.
Proof.
  induction s as [|a s IH]; [reflexivity|]. simpl.
  destruct (Ascii.eqb a c && String.eqb (PyStr.rstrip c s) "") eqn:C;
    [reflexivity|].
  simpl. now rewrite IH, C.
Qed.

End Stripping.


(** X17: slashes at the end of a source URL do not change the candidate
    feed URLs: they are built from the URL without its trailing slashes,
    which itself ends with no slash. *)
Theorem X17_trailing_slash (u : string) :
  feed_candidates (u ++ "/") = feed_candidates u
  /\ feed_candidates (PyStr.rstrip "/" u) = feed_candidates u
  /\ PyStr.rstrip "/" (PyStr.rstrip "/" u) = PyStr.rstrip "/" u.
Proof.
  unfold feed_candidates.
  rewrite path_rstrip_app, path_rstrip_idem. auto.
Qed.



(** X19: looking up after marking: after [mark_seen] of [g], an identifier
    is seen exactly if it is [g] or was seen before. *)
Theorem X19_lookup_after_mark (db : SeenStore.table) (g h : string)
  (t : Z) :
  SeenStore.is_seen (snd (SeenStore.mark_seen db g t)) h
  = (String.eqb h g || SeenStore.is_seen db h).
Proof.
  destruct (mark_seen_spec db g t) as (db' & -> & Sg & Mo & Other). simpl.
  destruct (String.eqb_spec h g) as [->|Hne]; simpl.
  - exact Sg.
  - now apply Other.
Qed.
